(** * render50 / render_pdf: a shallow embedding of [example/render.py]

    The program is a command-line driver around third-party libraries
    (WeasyPrint, PyPDF2, Pygments, natsort, braceexpand, requests).  The
    embedding keeps the driver's own logic executable and takes the
    libraries as an environment [Env] of total functions; the mutable
    part of the outside world (files, descriptors, standard input, the
    terminal) is an explicit [World] threaded through a state-and-exception
    monad [M]. *)

From Stdlib Require Import ZArith QArith Qminmax Qround Lia Lqa Ascii String.
From Stdlib.Strings Require Import Byte.
From Stdlib Require OrderedTypeEx.
From stdpp Require Import base strings list gmap sorting infinite pretty.

Local Open Scope string_scope.
Local Open Scope list_scope.

(** ** Python values *)

(** A Python [str] holding file contents: a sequence of code points.
    File names, patterns and messages stay Rocq strings. *)
Definition text := list N.

Definition bytes := list Byte.byte.

Inductive Exn :=
| RuntimeError (msg : string)
| SystemExit (code : Z)
| PyError (ty : string).

Inductive Res (A : Type) :=
| Ok (a : A)
| Raised (e : Exn).
Arguments Ok {A} a.
Arguments Raised {A} e.

(** ** Pages and documents *)

(** A rectangle [lower-left x, lower-left y, upper-right x, upper-right y];
    PyPDF2 holds the four entries as decimal numbers, kept exact here. *)
Record Box := mkBox { llx : Q; lly : Q; urx : Q; ury : Q }.

(** One content stream of a PDF page together with the translation that
    was applied when it was merged onto the page. *)
Record Placed := mkPlaced { frag : string; dx : Q; dy : Q }.

Record PdfPage := mkPdfPage { mediaBox : Box; contents : list Placed }.

Record Bookmark := mkBookmark
  { bm_level : nat; bm_label : string; bm_target : Z * Z; bm_state : string }.

(** A WeasyPrint page: width and height in CSS pixels. *)
Record WPage := mkWPage
  { width : Q; height : Q; body : string; bookmarks : list Bookmark }.

Record Document := mkDocument { pages : list WPage }.

(** The CSS [size] value handed to WeasyPrint.  The source builds it with
    [str.format]; the three shapes that occur are kept apart:
    a user or default specification, ["{}px {}px"] and ["{}pt {}pt"]. *)
Inductive Size :=
| SizeSpec (s : string)
| SizePx (w h : Z)
| SizePt (w h : Q).

(** The stylesheets the source formats, one constructor per template. *)
Inductive CSS :=
| CssPageMarginSize (margin : string) (size : Size)
| CssHtmlFontSize (fontSize : string)
| CssPageHeader (margin : string) (size : Size)
| CssTopRight (title : string)
| CssMonospace (fontSize : string)
| CssPygmentsDefs
| CssHighlightBackground
| CssLinenos
| CssLinenosAfter
| CssPageSize (size : Size).

Inductive Lexer :=
| TextLexer
| NamedLexer (name : string).

(** ** The outside world *)

Inductive FileData :=
| RawData (data : bytes)
| PdfData (pdf : list PdfPage).

Inductive Node :=
| NFile (readable : bool) (data : FileData)
| NDir.

Inductive Event :=
| Printed (msg : string) (color : option string)
| Prompted (msg : string).

Record World := mkWorld
  { files : gmap string Node;
    open_fds : gset nat;
    stdin : list string;
    tty : list Event }.

(** A parsed HTML tree, as far as the driver looks at it: the [src]
    attributes of the frames of each matching frameset, the markup with
    same-page links removed ([KeyError] for an anchor without [href]) and
    the markup as it is. *)
Record Soup := mkSoup
  { soup_framesets : list (list (option string));
    soup_strip_anchors : Res text;
    soup_str : text }.

(** ** The libraries *)

(** [raw_url] stands for lines 376-384 of [get], which rewrite GitHub and
    Gist addresses to their raw form before the request. *)
Record Env := mkEnv
  { braceexpand : string → Res (list string);
    glob : string → list string;
    os_walk : string → list (string * list string * list string);
    os_path_realpath : string → string;
    os_path_normjoin : string → string → string;
    urljoin : string → string → string;
    raw_url : string → string;
    requests_get : string → Res (Z * text);
    BeautifulSoup : text → Res Soup;
    get_lexer_for_filename : string → option Lexer;
    guess_lexer : text → option Lexer;
    highlight : text → Lexer → text;
    HTML_render : option string → text → list CSS → Res Document;
    pdf_serialize : list PdfPage → bytes }.

(** ** The monad *)

Definition M (A : Type) := World → Res A * World.

Definition ret {A} (a : A) : M A := λ w, (Ok a, w).

Definition bind {A B} (m : M A) (k : A → M B) : M B :=
  λ w, match m w with
       | (Ok a, w') => k a w'
       | (Raised e, w') => (Raised e, w')
       end.

#[global] Instance M_ret : MRet M := @ret.
#[global] Instance M_bind : MBind M := λ A B k m, bind m k.
#[global] Instance M_fmap : FMap M := λ A B f m, bind m (λ a, ret (f a)).

Definition raise {A} (e : Exn) : M A := λ w, (Raised e, w).

Definition lift {A} (r : Res A) : M A := λ w, (r, w).

(** [try: m except Exception as e: h e]; [SystemExit] is not an
    [Exception] and passes through. *)
Definition try_except {A} (m : M A) (h : Exn → M A) : M A :=
  λ w, match m w with
       | (Raised (SystemExit c), w') => (Raised (SystemExit c), w')
       | (Raised e, w') => h e w'
       | r => r
       end.

(** A bare [except:] catches everything. *)
Definition try_bare {A} (m : M A) (h : M A) : M A :=
  λ w, match m w with
       | (Raised _, w') => h w'
       | r => r
       end.

Definition get_world : M World := λ w, (Ok w, w).

(** [m] leaves the files as they are. *)
Definition files_fixed {A} (m : M A) : Prop :=
  ∀ w, files (m w).2 = files w.

(** [m] does not remove [p]. *)
Definition keeps (p : string) {A} (m : M A) : Prop :=
  ∀ w, is_Some (files w !! p) → is_Some (files (m w).2 !! p).

(** ** Strings *)

Definition esc : ascii := ascii_of_nat 27.
Definition cr : ascii := ascii_of_nat 13.
Definition clear_line : string := String esc "[2K".

Definition startswith (p s : string) : bool := String.prefix p s.

(** [s.startswith(("http", "https"))]: one of the prefixes matches. *)
Definition is_url (s : string) : bool :=
  startswith "http" s || startswith "https" s.

Definition lower_ascii (c : ascii) : ascii :=
  let n := nat_of_ascii c in
  if (65 <=? n)%nat && (n <=? 90)%nat then ascii_of_nat (n + 32) else c.

Fixpoint lower (s : string) : string :=
  match s with
  | EmptyString => EmptyString
  | String c s' => String (lower_ascii c) (lower s')
  end.

Definition is_space (c : ascii) : bool :=
  let n := nat_of_ascii c in
  ((9 <=? n)%nat && (n <=? 13)%nat) || ((28 <=? n)%nat && (n <=? 32)%nat).

Fixpoint lstrip (s : string) : string :=
  match s with
  | EmptyString => EmptyString
  | String c s' => if is_space c then lstrip s' else s
  end.

Fixpoint rstrip (s : string) : string :=
  match s with
  | EmptyString => EmptyString
  | String c s' =>
      match rstrip s' with
      | EmptyString => if is_space c then EmptyString else String c EmptyString
      | r => String c r
      end
  end.

Definition strip (s : string) : string := rstrip (lstrip s).

Definition endswith (suffix s : string) : bool :=
  startswith (String.rev suffix) (String.rev s).

Definition nl : string := String (ascii_of_nat 10) EmptyString.
Definition cr_end : string := String cr EmptyString.
Definition slash : ascii := ascii_of_nat 47.

Fixpoint all_slashes (s : string) : bool :=
  match s with
  | EmptyString => true
  | String c s' => Ascii.eqb c slash && all_slashes s'
  end.

Fixpoint rstrip_slashes (s : string) : string :=
  match s with
  | EmptyString => EmptyString
  | String c s' =>
      match rstrip_slashes s' with
      | EmptyString =>
          if Ascii.eqb c slash then EmptyString else String c EmptyString
      | r => String c r
      end
  end.

(** [p[:i], p[i:]] for [i = p.rfind('/') + 1], when [p] holds a slash. *)
Fixpoint rsplit_slash (p : string) : option (string * string) :=
  match p with
  | EmptyString => None
  | String c p' =>
      match rsplit_slash p' with
      | Some (h, t) => Some (String c h, t)
      | None =>
          if Ascii.eqb c slash then Some (String c EmptyString, p') else None
      end
  end.

Definition os_path_dirname (p : string) : string :=
  match rsplit_slash p with
  | None => EmptyString
  | Some (h, _) => if all_slashes h then h else rstrip_slashes h
  end.

Definition os_path_basename (p : string) : string :=
  match rsplit_slash p with
  | None => p
  | Some (_, t) => t
  end.

(** ** Text (code points) *)

(** Code points for which [str.isspace] holds. *)
Definition is_py_space (c : N) : bool :=
  ((9 <=? c) && (c <=? 13) || (28 <=? c) && (c <=? 32) || (c =? 133)
   || (c =? 160) || (c =? 5760) || (8192 <=? c) && (c <=? 8202)
   || (c =? 8232) || (c =? 8233) || (c =? 8239) || (c =? 8287)
   || (c =? 12288))%N.

(** [bool(code.strip())]: some code point is not white space. *)
Definition strip_nonempty (code : text) : bool :=
  existsb (λ c, negb (is_py_space c)) code.

(** Line boundaries of [str.splitlines]. *)
Definition is_linebreak (c : N) : bool :=
  ((10 <=? c) && (c <=? 13) || (28 <=? c) && (c <=? 30) || (c =? 133)
   || (c =? 8232) || (c =? 8233))%N.

(** [code.splitlines()[0]] for a non-empty [code]. *)
Fixpoint first_line (code : text) : text :=
  match code with
  | [] => []
  | c :: code' => if is_linebreak c then [] else c :: first_line code'
  end.

Definition starts_shebang (code : text) : bool :=
  match code with
  | 35%N :: 33%N :: _ => true
  | _ => false
  end.

(** ["\x00" in code] *)
Definition has_nul (code : text) : bool := existsb (N.eqb 0) code.

(** ** UTF-8, [errors="ignore"] *)

Definition in_range (lo hi b : N) : bool := ((lo <=? b) && (b <=? hi))%N.

Definition cont (b : N) : N := (b - 128)%N.

(** [bytes.decode("utf-8", "ignore")]: well-formed sequences (no overlong
    forms, no surrogates, nothing above U+10FFFF) give their code point;
    a byte that starts no well-formed sequence is dropped and decoding
    resumes at the next byte. *)
Fixpoint decode_utf8_ignore (bs : bytes) : text :=
  match bs with
  | [] => []
  | b0 :: r0 =>
      let n0 := Byte.to_N b0 in
      if (n0 <? 128)%N then n0 :: decode_utf8_ignore r0
      else
        match r0 with
        | [] => []
        | b1 :: r1 =>
            let n1 := Byte.to_N b1 in
            if in_range 194 223 n0 then
              if in_range 128 191 n1
              then ((n0 - 192) * 64 + cont n1)%N :: decode_utf8_ignore r1
              else decode_utf8_ignore r0
            else if in_range 224 239 n0 then
              let lo := if (n0 =? 224)%N then 160%N else 128%N in
              let hi := if (n0 =? 237)%N then 159%N else 191%N in
              if in_range lo hi n1 then
                match r1 with
                | [] => []
                | b2 :: r2 =>
                    let n2 := Byte.to_N b2 in
                    if in_range 128 191 n2
                    then ((n0 - 224) * 4096 + cont n1 * 64 + cont n2)%N
                           :: decode_utf8_ignore r2
                    else decode_utf8_ignore r0
                end
              else decode_utf8_ignore r0
            else if in_range 240 244 n0 then
              let lo := if (n0 =? 240)%N then 144%N else 128%N in
              let hi := if (n0 =? 244)%N then 143%N else 191%N in
              if in_range lo hi n1 then
                match r1 with
                | [] => []
                | b2 :: r2 =>
                    let n2 := Byte.to_N b2 in
                    if in_range 128 191 n2 then
                      match r2 with
                      | [] => []
                      | b3 :: r3 =>
                          let n3 := Byte.to_N b3 in
                          if in_range 128 191 n3
                          then ((n0 - 240) * 262144 + cont n1 * 4096
                                + cont n2 * 64 + cont n3)%N
                                 :: decode_utf8_ignore r3
                          else decode_utf8_ignore r0
                      end
                    else decode_utf8_ignore r0
                end
              else decode_utf8_ignore r0
            else decode_utf8_ignore r0
        end
  end.

(** A Unicode scalar value: at most U+10FFFF and not a surrogate. *)
Definition is_scalar (c : N) : Prop :=
  (c <= 1114111 ∧ ¬ (55296 <= c ∧ c <= 57343))%N.

(** ** Operations on the world *)

(** The world after [events] went to the terminal. *)
Definition logged (w : World) (events : list Event) : World :=
  mkWorld (files w) (open_fds w) (stdin w) (tty w ++ events).

Definition log (e : Event) : M unit := λ w, (Ok tt, logged w [e]).

(** [cprint(text, color, end=...)]; wrapping to the terminal width and
    the colour codes belong to [textwrap] and [termcolor]. *)
Definition printed (msg : string) (color : option string) (ending : string)
  : Event :=
  Printed (msg +:+ ending) color.

Definition cprint (msg : string) (color : option string) (ending : string)
  : M unit :=
  log (printed msg color ending).

(** [sys.exit(code)] *)
Definition sys_exit {A} (code : Z) : M A := raise (SystemExit code).

Definition cancel {A} (code : Z) : M A :=
  cprint "Rendering cancelled." (Some "red") nl ;; sys_exit code.

(** [input(prompt)]: one line of standard input, [EOFError] at its end. *)
Definition input (prompt : string) : M string :=
  λ w, match stdin w with
       | [] => (Raised (PyError "EOFError"),
                mkWorld (files w) (open_fds w) [] (tty w ++ [Prompted prompt]))
       | l :: ls => (Ok l, mkWorld (files w) (open_fds w) ls
                                   (tty w ++ [Prompted prompt]))
       end.

Definition os_path_exists (w : World) (p : string) : bool :=
  bool_decide (is_Some (files w !! p)).

Definition os_path_isfile (w : World) (p : string) : bool :=
  match files w !! p with Some (NFile _ _) => true | _ => false end.

Definition os_path_isdir (w : World) (p : string) : bool :=
  match files w !! p with Some NDir => true | _ => false end.

Definition set_files (f : gmap string Node → gmap string Node) : M unit :=
  λ w, (Ok tt, mkWorld (f (files w)) (open_fds w) (stdin w) (tty w)).

(** [mkstemp()]: a new empty file under a name that did not exist, and an
    open descriptor for it. *)
Definition mkstemp : M (nat * string) :=
  λ w, let p := fresh (dom (files w)) in
       let fd := fresh (open_fds w) in
       (Ok (fd, p),
        mkWorld (<[p := NFile true (RawData [])]> (files w))
                ({[fd]} ∪ open_fds w) (stdin w) (tty w)).

Definition os_close (fd : nat) : M unit :=
  λ w, if bool_decide (fd ∈ open_fds w)
       then (Ok tt, mkWorld (files w) (open_fds w ∖ {[fd]}) (stdin w) (tty w))
       else (Raised (PyError "OSError"), w).

Definition os_remove (p : string) : M unit :=
  λ w, match files w !! p with
       | Some (NFile _ _) =>
           (Ok tt, mkWorld (delete p (files w)) (open_fds w) (stdin w) (tty w))
       | Some NDir => (Raised (PyError "IsADirectoryError"), w)
       | None => (Raised (PyError "FileNotFoundError"), w)
       end.

(** The bytes a file holds; a PDF in its serialized form. *)
Definition stored_bytes (E : Env) (data : FileData) : bytes :=
  match data with
  | RawData bs => bs
  | PdfData ps => pdf_serialize E ps
  end.

(** [open(file, "rb").read()] *)
Definition read_bytes (E : Env) (file : string) : M bytes :=
  λ w, match files w !! file with
       | None => (Raised (PyError "FileNotFoundError"), w)
       | Some NDir => (Raised (PyError "IsADirectoryError"), w)
       | Some (NFile false _) => (Raised (PyError "PermissionError"), w)
       | Some (NFile true data) => (Ok (stored_bytes E data), w)
       end.

(** [PdfFileReader(path)]: the pages of the PDF stored at [path]. *)
Definition PdfFileReader (path : string) : M (list PdfPage) :=
  λ w, match files w !! path with
       | None => (Raised (PyError "FileNotFoundError"), w)
       | Some NDir => (Raised (PyError "IsADirectoryError"), w)
       | Some (NFile false _) => (Raised (PyError "PermissionError"), w)
       | Some (NFile true (RawData _)) => (Raised (PyError "PdfReadError"), w)
       | Some (NFile true (PdfData ps)) => (Ok ps, w)
       end.

(** CSS pixels to PDF points. *)
Definition px_to_pt (x : Q) : Q := (x * (3 # 4))%Q.

(** What [write_pdf] emits for one rendered page: a media box anchored
    at the origin and the page's own content, untranslated. *)
Definition pdf_of_wpage (p : WPage) : PdfPage :=
  mkPdfPage (mkBox 0 0 (px_to_pt (width p)) (px_to_pt (height p)))
            [mkPlaced (body p) 0 0].

(** [document.write_pdf(output)] *)
Definition write_pdf (output : string) (d : Document) : M unit :=
  set_files (<[output := NFile true (PdfData (pdf_of_wpage <$> pages d))]>).

Section Program.

Variable E : Env.

(** *** [blank] *)
Definition blank (size : Size) : M Document :=
  lift (HTML_render E None [] [CssPageSize size]).

(** *** [get] *)
Definition get (file : string) : M text :=
  if is_url file then
    let file := raw_url E file in
    req ← lift (requests_get E file);
    if (req.1 =? 200)%Z then mret req.2
    else
      cprint clear_line None cr_end;;
      raise (RuntimeError ("Could not GET " +:+ file +:+ "."))
  else
    try_except
      (bs ← read_bytes E file; mret (decode_utf8_ignore bs))
      (λ e,
         cprint clear_line None cr_end;;
         match e with
         | PyError "FileNotFoundError" =>
             raise (RuntimeError ("Could not find " +:+ file +:+ "."))
         | _ => raise (RuntimeError ("Could not read " +:+ file +:+ "."))
         end).

(** *** [join] *)
Definition join (a b : string) : string :=
  if startswith "http://" b || startswith "https://" b then b
  else if startswith "http://" a || startswith "https://" a then urljoin E a b
  else os_path_normjoin E (os_path_dirname a) b.

(** *** [write] *)
Definition write (output : string) (documents : list Document) (echo : bool)
  : M bool :=
  match documents with
  | d0 :: _ =>
      let pages := d ← documents; pages d in
      write_pdf output (mkDocument pages);;
      (if echo
       then cprint ("Rendered " +:+ output +:+ ".") (Some "green") nl
       else mret tt);;
      mret true
  | [] => mret false
  end.

(** *** [render] *)

Definition pick_lexer (filename : string) (code : text) : Lexer :=
  match get_lexer_for_filename E filename with
  | Some lexer => lexer
  | None =>
      if starts_shebang code then
        match guess_lexer E (first_line code) with
        | Some lexer => lexer
        | None => TextLexer
        end
      else TextLexer
  end.

Definition set_bookmark (title : string) (d : Document) : M Document :=
  match pages d with
  | [] => raise (PyError "IndexError")
  | p :: ps =>
      mret (mkDocument
              (mkWPage (width p) (height p) (body p)
                       [mkBookmark 1 title (0, 0)%Z "closed"] :: ps))
  end.

Definition render (filename : string) (size : Size) (browser color : bool)
    (fontSize margin : string) (path relative : bool)
  : M (option Document) :=
  cprint ("Rendering " +:+ filename +:+ "...") None EmptyString;;
  if browser then
    let stylesheets :=
      [CssPageMarginSize margin size; CssHtmlFontSize fontSize] in
    document ← try_except
      (page ← get filename;
       soup ← lift (BeautifulSoup E page);
       html ← (if relative then mret (soup_str soup)
               else lift (soup_strip_anchors soup));
       lift (HTML_render E (Some (os_path_dirname filename)) html stylesheets))
      (λ e,
         cprint clear_line None cr_end;;
         match e with
         | PyError "RequestException" | PyError "URLFetchingError" =>
             raise (RuntimeError ("Could not GET " +:+ filename +:+ "."))
         | _ => raise (RuntimeError ("Could not read " +:+ filename +:+ "."))
         end);
    (* line 504 reads [title], which only the other branch assigns *)
    raise (PyError "UnboundLocalError")
  else
    code ← get filename;
    if has_nul code then
      cprint clear_line None cr_end;;
      cprint ("Could not render " +:+ filename +:+ " because binary.")
             (Some "yellow") nl;;
      mret None
    else
      let string :=
        if strip_nonempty code && color
        then highlight E code (pick_lexer filename code)
        else highlight E code TextLexer in
      let title := if path then filename else os_path_basename filename in
      (* [title.replace("'", "\'")] replaces a quote by a quote *)
      let stylesheets :=
        [CssPageHeader margin size; CssTopRight title; CssMonospace fontSize;
         CssPygmentsDefs; CssHighlightBackground; CssLinenos;
         CssLinenosAfter] in
      document ← lift (HTML_render E None string stylesheets);
      document ← set_bookmark title document;
      cprint clear_line None cr_end;;
      cprint ("Rendered " +:+ filename +:+ ".") None nl;;
      mret (Some document).

End Program.

(** ** natsort

    [natsorted(xs, alg=ns.IGNORECASE)] is [sorted(xs, key=k)] for the key
    [k] below: the string is case-folded, cut into maximal runs of digits
    and of other characters, digit runs become integers, and an empty
    string is put in front when the first run is a number, so that the
    tuple always alternates string, integer, string, ... *)

Inductive Chunk :=
| CStr (s : string)
| CNum (n : N).

Inductive Run :=
| Digits (s : string)
| Letters (s : string).

Definition is_digit (c : ascii) : bool :=
  let n := nat_of_ascii c in (48 <=? n)%nat && (n <=? 57)%nat.

Fixpoint runs (s : string) : list Run :=
  match s with
  | EmptyString => []
  | String c s' =>
      match is_digit c, runs s' with
      | true, Digits d :: r => Digits (String c d) :: r
      | true, r => Digits (String c EmptyString) :: r
      | false, Letters l :: r => Letters (String c l) :: r
      | false, r => Letters (String c EmptyString) :: r
      end
  end.

Fixpoint int_of_digits (acc : N) (s : string) : N :=
  match s with
  | EmptyString => acc
  | String c s' => int_of_digits (acc * 10 + (N_of_ascii c - 48))%N s'
  end.

Definition chunk_of_run (r : Run) : Chunk :=
  match r with
  | Digits d => CNum (int_of_digits 0 d)
  | Letters l => CStr l
  end.

(** [sep_inserter]: a leading number gets an empty string before it. *)
Definition sep_inserter (cs : list Chunk) : list Chunk :=
  match cs with
  | CNum n :: _ => CStr EmptyString :: cs
  | _ => cs
  end.

Definition natsort_key (s : string) : list Chunk :=
  sep_inserter (chunk_of_run <$> runs (lower s)).

(** Python's ordering of tuple elements.  A string never meets an
    integer at the same index of two keys; the last two cases only make
    the function total. *)
Definition chunk_compare (a b : Chunk) : comparison :=
  match a, b with
  | CStr s, CStr t => String.compare s t
  | CNum n, CNum m => N.compare n m
  | CStr _, CNum _ => Lt
  | CNum _, CStr _ => Gt
  end.

(** Tuples compare lexicographically, a proper prefix first. *)
Fixpoint key_compare (k1 k2 : list Chunk) : comparison :=
  match k1, k2 with
  | [], [] => Eq
  | [], _ :: _ => Lt
  | _ :: _, [] => Gt
  | a :: k1', b :: k2' =>
      match chunk_compare a b with
      | Eq => key_compare k1' k2'
      | c => c
      end
  end.

Definition natsort_leb (x y : string) : bool :=
  match key_compare (natsort_key x) (natsort_key y) with
  | Gt => false
  | _ => true
  end.

(** [sorted] is stable: of two entries with equal keys the one that
    came first stays first. *)
Fixpoint insert_sorted (leb : string → string → bool) (x : string)
    (l : list string) : list string :=
  match l with
  | [] => [x]
  | y :: l' => if leb x y then x :: l else y :: insert_sorted leb x l'
  end.

Definition natsorted (l : list string) : list string :=
  foldr (insert_sorted natsort_leb) [] l.

Definition natsort_le (x y : string) : Prop := natsort_leb x y = true.

(** ** Regular expressions

    The fragment of [re] syntax that [re.escape], the replacement of an
    escaped star by [.*], and joining with [|] between [^] and [$] can
    produce: literal characters (escaped or not), [.], a star after a
    character or a dot, the two anchors, and alternation, which binds
    weakest. *)

Inductive CharClass :=
| CLit (c : ascii)
| CAny.

Inductive Atom :=
| AChar (cls : CharClass)
| AStar (cls : CharClass)
| ABol
| AEol.

(** An alternation of sequences. *)
Definition Regex := list (list Atom).

Definition chr (n : nat) : ascii := ascii_of_nat n.

Definition backslash : ascii := chr 92.
Definition newline : ascii := chr 10.

(** The characters [re.escape] puts a backslash before. *)
Definition special_chars : list ascii :=
  chr <$> [40; 41; 91; 93; 123; 125; 63; 42; 43; 45; 124; 94; 36; 92; 46;
           38; 126; 35; 32; 9; 10; 13; 11; 12]%nat.

Definition is_special (c : ascii) : bool :=
  existsb (Ascii.eqb c) special_chars.

Fixpoint re_escape (s : string) : string :=
  match s with
  | EmptyString => EmptyString
  | String c s' =>
      if is_special c then String backslash (String c (re_escape s'))
      else String c (re_escape s')
  end.

(** [s.replace("\*", ".*")]: the two-character string backslash, star. *)
Fixpoint replace_escaped_star (s : string) : string :=
  match s with
  | EmptyString => EmptyString
  | String c s' =>
      match s' with
      | String d s'' =>
          if Ascii.eqb c backslash && Ascii.eqb d (chr 42)
          then String (chr 46) (String (chr 42) (replace_escaped_star s''))
          else String c (replace_escaped_star s')
      | EmptyString => String c EmptyString
      end
  end.

Fixpoint str_join (sep : string) (l : list string) : string :=
  match l with
  | [] => EmptyString
  | [x] => x
  | x :: l' => x +:+ sep +:+ str_join sep l'
  end.

(** Metacharacters outside the fragment; [re.escape] never leaves one
    unescaped. *)
Definition unsupported_meta (c : ascii) : bool :=
  existsb (Ascii.eqb c) (chr <$> [40; 41; 91; 93; 123; 125; 63; 43]%nat).

Definition is_alnum (c : ascii) : bool :=
  let n := nat_of_ascii c in
  ((48 <=? n) && (n <=? 57) || (65 <=? n) && (n <=? 90)
   || (97 <=? n) && (n <=? 122))%nat.

(** [re.compile]: [cur] is the sequence being read, [done] the
    alternatives already closed by a bar, both reversed. *)
Fixpoint re_parse (s : string) (cur : list Atom) (done : list (list Atom))
  : option Regex :=
  match s with
  | EmptyString => Some (rev (rev cur :: done))
  | String c s' =>
      if Ascii.eqb c backslash then
        match s' with
        | String d s'' =>
            if is_alnum d then None
            else re_parse s'' (AChar (CLit d) :: cur) done
        | EmptyString => None
        end
      else if Ascii.eqb c (chr 124) then re_parse s' [] (rev cur :: done)
      else if Ascii.eqb c (chr 94) then re_parse s' (ABol :: cur) done
      else if Ascii.eqb c (chr 36) then re_parse s' (AEol :: cur) done
      else if Ascii.eqb c (chr 46) then re_parse s' (AChar CAny :: cur) done
      else if Ascii.eqb c (chr 42) then
        match cur with
        | AChar cls :: cur' => re_parse s' (AStar cls :: cur') done
        | _ => None
        end
      else if unsupported_meta c then None
      else re_parse s' (AChar (CLit c) :: cur) done
  end.

Definition re_compile (pattern : string) : option Regex :=
  re_parse pattern [] [].

Definition class_matches (cls : CharClass) (c : ascii) : bool :=
  match cls with
  | CLit d => Ascii.eqb d c
  | CAny => negb (Ascii.eqb c newline)
  end.

(** [$] holds at the end of the string and just before a final newline. *)
Definition at_eol (s : string) : bool :=
  match s with
  | EmptyString => true
  | String c EmptyString => Ascii.eqb c newline
  | _ => false
  end.

(** Does the sequence match some prefix of [s]?  [bol] tells whether
    [s] is the whole subject, that is, whether [^] holds here. *)
Fixpoint match_seq (atoms : list Atom) : bool → string → bool :=
  match atoms with
  | [] => λ _ _, true
  | a :: rest =>
      match a with
      | AChar cls => λ _ s,
          match s with
          | String c s' => class_matches cls c && match_seq rest false s'
          | EmptyString => false
          end
      | AStar cls =>
          fix star (bol : bool) (s : string) : bool :=
            match_seq rest bol s
            || match s with
               | String c s' => class_matches cls c && star false s'
               | EmptyString => false
               end
      | ABol => λ bol s, bol && match_seq rest bol s
      | AEol => λ bol s, at_eol s && match_seq rest bol s
      end
  end.

Definition match_here (r : Regex) (bol : bool) (s : string) : bool :=
  existsb (λ alt, match_seq alt bol s) r.

Fixpoint search_from (r : Regex) (bol : bool) (s : string) : bool :=
  match_here r bol s
  || match s with
     | String _ s' => search_from r false s'
     | EmptyString => false
     end.

(** [bool(re.search(pattern, s))] *)
Definition re_search (pattern : string) (s : string) : Res bool :=
  match re_compile pattern with
  | Some r => Ok (search_from r true s)
  | None => Raised (PyError "re.error")
  end.

(** ** [main] *)

Record Args := mkArgs
  { arg_browser : bool;
    arg_force : bool;
    arg_no_color : bool;
    arg_include : list string;
    arg_output : string;
    arg_no_path : bool;
    arg_recursive : bool;
    arg_size : option string;
    arg_exclude : list string;
    arg_side_by_side : bool;
    arg_INPUT : list string }.

Definition index {A} (l : list A) (i : nat) : M A :=
  match l !! i with
  | Some x => mret x
  | None => raise (PyError "IndexError")
  end.

Definition assert (b : bool) : M unit :=
  if b then mret tt else raise (PyError "AssertionError").

(** [sys.stdin.readlines()] and [sys.stdin.read().splitlines()]: what is
    left of standard input, line by line. *)
Definition stdin_read_all : M (list string) :=
  λ w, (Ok (stdin w), mkWorld (files w) (open_fds w) [] (tty w)).

(** [os.path.join(a, b)] *)
Definition os_path_join (a b : string) : string :=
  if startswith "/" b then b
  else if String.eqb a EmptyString || endswith "/" a then a +:+ b
  else a +:+ "/" +:+ b.

(** A value that is built and dropped, as in an expression statement. *)
Definition discard {A} (x : A) : M unit := mret tt.

(** Python 3's [map(f, xs)]: an iterator; [f] runs only when the
    iterator is consumed, for instance by [list]. *)
Inductive MapObject (B : Type) :=
| py_map {A : Type} (f : A → M B) (xs : list A).
Arguments py_map {B A} f xs.

Fixpoint forM {A B} (f : A → M B) (l : list A) : M (list B) :=
  match l with
  | [] => mret []
  | x :: l' => y ← f x; ys ← forM f l'; mret (y :: ys)
  end.

Definition py_list {B} (it : MapObject B) : M (list B) :=
  match it with
  | py_map f xs => forM f xs
  end.

(** *** The compositor *)

(** [page.mergeTranslatedPage(page2, tx, ty, expand=True)] of PyPDF2:
    the content of [page2] is added, moved by [(tx, ty)], and the media
    box grows to the smallest rectangle holding itself and the moved
    corners of [page2]'s media box. *)
Definition mergeTranslatedPage (page page2 : PdfPage) (tx ty : Q) : PdfPage :=
  let b1 := mediaBox page in
  let b2 := mediaBox page2 in
  let lowerleft_x := Qmin (llx b2 + tx) (urx b2 + tx) in
  let lowerleft_y := Qmin (lly b2 + ty) (ury b2 + ty) in
  let upperright_x := Qmax (llx b2 + tx) (urx b2 + tx) in
  let upperright_y := Qmax (lly b2 + ty) (ury b2 + ty) in
  mkPdfPage
    (mkBox (Qmin (llx b1) lowerleft_x) (Qmin (lly b1) lowerleft_y)
           (Qmax (urx b1) upperright_x) (Qmax (ury b1) upperright_y))
    (contents page
     ++ ((λ c, mkPlaced (frag c) (dx c + tx) (dy c + ty)) <$> contents page2)).

(** [copy(reader.getPage(i)) if i < reader.getNumPages() else copy(page)] *)
Definition page_or_filler (page : PdfPage) (reader : list PdfPage) (i : nat)
  : PdfPage :=
  match reader !! i with
  | Some p => p
  | None => page
  end.

(** The inner loop over [readers[1:]]. *)
Definition merge_right (page : PdfPage) (i : nat) (left : PdfPage)
    (reader : list PdfPage) : PdfPage :=
  let right := page_or_filler page reader i in
  mergeTranslatedPage left right (urx (mediaBox left)) 0.

(** One round of the outer loop: the page added to the writer. *)
Definition merged_page (page : PdfPage) (first : list PdfPage)
    (others : list (list PdfPage)) (i : nat) : PdfPage :=
  foldl (merge_right page i) (page_or_filler page first i) others.

(** [max(map(lambda r: r.getNumPages(), readers))] for non-empty [readers] *)
Definition max_pages (readers : list (list PdfPage)) : nat :=
  max_list (length <$> readers).

(** Width and height of a page, from its media box. *)
Definition page_width (p : PdfPage) : Q :=
  (urx (mediaBox p) - llx (mediaBox p))%Q.

Definition page_height (p : PdfPage) : Q :=
  (ury (mediaBox p) - lly (mediaBox p))%Q.

(** The media box [write_pdf] gives every page: lower-left corner at the
    origin. *)
Definition at_origin (p : PdfPage) : Prop :=
  (llx (mediaBox p) == 0 ∧ lly (mediaBox p) == 0
   ∧ 0 <= urx (mediaBox p) ∧ 0 <= ury (mediaBox p))%Q.

Definition Qsum (l : list Q) : Q := foldr Qplus 0%Q l.

Section Driver.

Variable E : Env.

Definition concatenate (output : string) (inputs : list string) : M unit :=
  readers ← py_list (py_map PdfFileReader inputs);
  temp ← mkstemp;
  first ← index readers 0;
  page0 ← index first 0;
  let size := SizePt (urx (mediaBox page0)) (ury (mediaBox page0)) in
  document ← blank E size;
  write temp.2 [document] false;;
  filler ← PdfFileReader temp.2;
  page ← index filler 0;
  let written :=
    (λ i, merged_page page first (tail readers) i)
      <$> seq 0 (max_pages readers) in
  set_files (<[output := NFile true (PdfData written)]>);;
  os_close temp.1;;
  os_remove temp.2.

(** Lines 108-115: brace and glob expansion of the patterns. *)
Fixpoint glob_patterns (patterns : list string) (paths : list string)
  : M (list string) :=
  match patterns with
  | [] => mret paths
  | pattern :: patterns' =>
      let paths := if is_url pattern then paths ++ [pattern] else paths in
      paths ←
        (if String.eqb pattern EmptyString then mret paths
         else
           expressions ← lift (braceexpand E pattern);
           mret (foldl (λ acc expression,
                          acc ++ natsorted (glob E expression))
                       paths expressions));
      glob_patterns patterns' paths
  end.

(** What one pattern adds to [paths]: itself when it is a URL, then the
    sorted matches of each of its brace expansions. *)
Definition url_part (pattern : string) : list string :=
  if is_url pattern then [pattern] else [].

Definition sorted_matches (expressions : list string) : list string :=
  concat ((λ expression, natsorted (glob E expression)) <$> expressions).

(** The brace expansions the loop goes through for a pattern; none for
    the empty pattern. *)
Definition expansions (pattern : string) : Res (list string) :=
  if String.eqb pattern EmptyString then Ok [] else braceexpand E pattern.


(** The files below a directory, in the order [os.walk] yields them. *)
Definition walk_files (path : string) : list string :=
  '(dirpath, _, filenames) ← os_walk E path;
  os_path_join dirpath <$> filenames.

(** Lines 117-130: candidates to render. *)
Fixpoint find_candidates (paths : list string) (candidates : list string)
  : M (list string) :=
  match paths with
  | [] => mret candidates
  | path :: paths' =>
      w ← get_world;
      if os_path_isfile w path || is_url path
      then find_candidates paths' (candidates ++ [path])
      else if os_path_isdir w path
      then find_candidates paths' (candidates ++ natsorted (walk_files path))
      else raise (RuntimeError ("Could not recognize " +:+ path +:+ "."))
  end.

(** Lines 89-99: [re.escape(i).replace("\*", ".*")] for every pattern. *)
Definition translate_patterns (patterns : list string) : list string :=
  (λ i, replace_escaped_star (re_escape i)) <$> patterns.

(** [r"^" + r"|".join(patterns) + "$"] *)
Definition anchored (patterns : list string) : string :=
  "^" +:+ str_join "|" patterns +:+ "$".

(** A candidate against one pattern alone, anchored at both ends: what
    the filters are meant to test, pattern by pattern. *)
Definition matches_anchored (pattern candidate : string) : Res bool :=
  re_search (anchored (translate_patterns [pattern])) candidate.

(** Lines 132-145: the include and exclude filters. *)
Fixpoint filter_candidates (includes excludes : list string)
    (candidates : list string) (queue : list string) : M (list string) :=
  match candidates with
  | [] => mret queue
  | candidate :: candidates' =>
      skip_in ←
        (if bool_decide (includes ≠ [])
         then found ← lift (re_search (anchored includes) candidate);
              mret (negb found)
         else mret false);
      if (skip_in : bool)
      then filter_candidates includes excludes candidates' queue
      else
        skip_ex ←
          (if bool_decide (excludes ≠ [])
           then lift (re_search (anchored excludes) candidate)
           else mret false);
        if (skip_ex : bool)
        then filter_candidates includes excludes candidates' queue
        else filter_candidates includes excludes candidates'
                               (queue ++ [candidate])
  end.

(** Lines 147-161: how many inputs each mode takes. *)
Definition check_counts (args : Args) (queue : list string) : M unit :=
  (if arg_side_by_side args then
     if (length queue <? 2)%nat
     then raise (RuntimeError "Too few files to render side by side.")
     else if (3 <? length queue)%nat
     then raise (RuntimeError "Too many files to render side by side.")
     else mret tt
   else mret tt);;
  if arg_browser args && negb (length queue =? 1)%nat
  then raise (RuntimeError "Can only render one input as browser would.")
  else mret tt.

Definition is_yes (s : string) : bool :=
  bool_decide (lower s ∈ ["y"; "yes"]).

Definition is_no (s : string) : bool :=
  bool_decide (lower s ∈ ["n"; "no"]).

(** The [while True] loop of lines 168-173.  Every round reads one line
    of standard input, so the number of lines left bounds the rounds;
    [input] raises [EOFError] before [rounds] can run out. *)
Definition overwrite_prompt (output : string) : string :=
  "Overwrite " +:+ output +:+ "? ".

Fixpoint overwrite_loop (output : string) (rounds : nat) : M unit :=
  s ← input (overwrite_prompt output);
  if is_yes s then mret tt
  else if is_no s then cancel 0
  else
    match rounds with
    | O => raise (PyError "EOFError")
    | S rounds' => overwrite_loop output rounds'
    end.

(** Lines 164-173: whether to overwrite an existing output. *)
Definition confirm_overwrite (args : Args) (output : string) : M unit :=
  w ← get_world;
  if negb (arg_force args) && os_path_exists w output then
    if bool_decide (arg_INPUT args = [])
    then raise (RuntimeError "Output exists.")
    else overwrite_loop output (length (stdin w))
  else mret tt.

(** [os.makedirs(dirname)], for a directory that may exist already. *)
Definition os_makedirs (dirname : string) : M unit :=
  w ← get_world;
  if os_path_exists w dirname then raise (PyError "FileExistsError")
  else set_files (<[dirname := NDir]>).

(** The [while True] loop of lines 178-186; it has no [break]. *)
Fixpoint makedirs_loop (dirname : string) (rounds : nat) : M unit :=
  s ← input ("Create " +:+ dirname +:+ "? ");
  let s := strip s in
  (if is_no s then cancel 0
   else if is_yes s then
     try_except (os_makedirs dirname)
       (λ _, raise (RuntimeError ("Could not create " +:+ dirname +:+ ".")))
   else mret tt);;
  match rounds with
  | O => raise (PyError "EOFError")
  | S rounds' => makedirs_loop dirname rounds'
  end.

Definition confirm_directory (output : string) : M unit :=
  let dirname := os_path_dirname (os_path_realpath E output) in
  w ← get_world;
  if negb (os_path_isdir w dirname)
  then makedirs_loop dirname (length (stdin w))
  else mret tt.

Definition size_char_ok (c : ascii) : bool :=
  is_alnum c || Ascii.eqb c (chr 45) || Ascii.eqb c (chr 32).

Definition named_sizes : list string :=
  ["A5"; "A4"; "A3"; "B5"; "B4"; "JIS-B5"; "JIS-B4"; "letter"; "legal";
   "ledger"].

(** [args.size] when it is given and not empty, as [if not args.size]
    tests it. *)
Definition size_given (args : Args) : option string :=
  match arg_size args with
  | Some s => if String.eqb s EmptyString then None else Some s
  | None => None
  end.

(** Lines 188-200: the page size. *)
Definition determine_size (args : Args) : M string :=
  match size_given args with
  | None =>
      if arg_browser args then mret "letter portrait"
      else mret "letter landscape"
  | Some s =>
      let size := strip s in
      if negb (String.eqb size EmptyString)
         && forallb size_char_ok (list_ascii_of_string size)
      then
        if bool_decide (size ∈ named_sizes)
        then mret (size +:+ " landscape")
        else mret size
      else raise (RuntimeError "Invalid size.")
  end.

(** [int(x)] for a float: the fraction is cut off. *)
Definition py_int (x : Q) : Z := Z.quot (Qnum x) (Z.pos (Qden x)).

Definition div_len (x : Q) (n : nat) : M Q :=
  if (n =? 0)%nat then raise (PyError "ZeroDivisionError")
  else mret (x / inject_Z (Z.of_nat n))%Q.

(** [if not document: cancel(1)] *)
Definition or_cancel (document : option Document) : M Document :=
  match document with
  | Some d => mret d
  | None => cancel 1
  end.

(** Lines 234-280: rendering the inputs side by side. *)
Definition side_by_side (args : Args) (output : string)
    (queue : list string) (size : Size) : M unit :=
  document ← blank E size;
  page ← index (pages document) 0;
  width ← py_int <$> div_len (width page) (length queue);
  let height := py_int (height page) in
  let size := SizePx width height in
  (* first input *)
  temp0 ← mkstemp;
  queued ← index queue 0;
  document ← render E queued size (arg_browser args)
    (negb (arg_no_color args)) "8pt" ".5in .25in .5in .5in"
    (negb (arg_no_path args)) false;
  document ← or_cancel document;
  write temp0.2 [document] false;;
  (* second input *)
  temp1 ← mkstemp;
  let margin := if (length queue =? 2)%nat then ".5in .5in .5in .25in"
                else ".5in .375in .5in .375in" in
  queued ← index queue 1;
  document ← render E queued size (arg_browser args)
    (negb (arg_no_color args)) "8pt" margin (negb (arg_no_path args)) false;
  document ← or_cancel document;
  write temp1.2 [document] false;;
  (* third input, if any *)
  temps ←
    (if (length queue =? 3)%nat then
       temp2 ← mkstemp;
       queued ← index queue 2;
       document ← render E queued size (arg_browser args)
         (negb (arg_no_color args)) "8pt" ".5in .5in .5in .25in"
         (negb (arg_no_path args)) false;
       document ← or_cancel document;
       write temp2.2 [document] false;;
       mret [temp0; temp1; temp2]
     else mret [temp0; temp1]);
  inputs ← py_list (py_map (λ f : nat * string, mret f.2) temps);
  concatenate output inputs;;
  (* lines 275-276: two [map] objects, never consumed *)
  discard (py_map (λ f : nat * string, os_close f.1) temps);;
  discard (py_map (λ f : nat * string, os_remove f.2) temps);;
  cprint ("Rendered " +:+ output +:+ ".") (Some "green") nl;;
  sys_exit 0.

(** Lines 219-231: one input, rendered as a browser would. *)
Definition noframes {A} (output : string) (queue : list string) (size : Size)
  : M A :=
  queued ← index queue 0;
  document ← render E queued size true true "10pt" ".5in" true true;
  document ← or_cancel document;
  ok ← write output [document] true;
  (if ok : bool then mret tt else cancel 1);;
  cprint ("Rendered " +:+ output +:+ ".") (Some "green") nl;;
  sys_exit 0.

(** Lines 205-213: the frames of the page, when it is a frameset of two
    or three columns. *)
Definition find_frames (queue : list string) : M (list (option string)) :=
  queued ← index queue 0;
  page ← get E queued;
  soup ← lift (BeautifulSoup E page);
  let framesets := soup_framesets soup in
  assert (length framesets =? 1)%nat;;
  frames ← index framesets 0;
  assert ((2 <=? length frames)%nat && (length frames <=? 3)%nat);;
  mret frames.

(** [frame.attrs["src"]] for every frame, [KeyError] when one has none. *)
Fixpoint frame_sources (frames : list (option string)) : option (list string) :=
  match frames with
  | [] => Some []
  | Some src :: frames' => cons src <$> frame_sources frames'
  | None :: _ => None
  end.

(** Lines 282-287: the documents of the queue, binary inputs left out. *)
Fixpoint render_queue (args : Args) (size : Size) (queue : list string)
    (documents : list Document) : M (list Document) :=
  match queue with
  | [] => mret documents
  | queued :: queue' =>
      document ← render E queued size false (negb (arg_no_color args))
        "10pt" ".5in" (negb (arg_no_path args)) true;
      match document with
      | Some d => render_queue args size queue' (documents ++ [d])
      | None => render_queue args size queue' documents
      end
  end.

Definition main (args : Args) : M unit :=
  (* lines 78-81 *)
  let output := arg_output args in
  let output := if endswith ".pdf" (lower output) then output
                else output +:+ ".pdf" in
  (* lines 83-87 *)
  inputs ← (if bool_decide (arg_INPUT args ≠ []) then mret (arg_INPUT args)
            else fmap strip <$> stdin_read_all);
  (* lines 89-99 *)
  let includes := translate_patterns (arg_include args) in
  let excludes := translate_patterns (arg_exclude args) in
  (* lines 101-106 *)
  patterns ← (if bool_decide (inputs = ["-"]) then stdin_read_all
              else mret inputs);
  paths ← glob_patterns patterns [];
  candidates ← find_candidates paths [];
  queue ← filter_candidates includes excludes candidates [];
  check_counts args queue;;
  confirm_overwrite args output;;
  confirm_directory output;;
  size ← determine_size args;
  (* lines 202-231 *)
  '(size, side, queue) ←
    (if arg_browser args then
       frames ← try_bare (Some <$> find_frames queue) (mret None);
       match frames with
       | None => noframes output queue (SizeSpec size)
       | Some frames =>
           let size := if size_given args is None then "letter landscape"
                       else size in
           match queue !! 0, frame_sources frames with
           | Some queued, Some srcs =>
               mret (size, true, join E queued <$> srcs)
           | _, _ => noframes output queue (SizeSpec size)
           end
       end
     else mret (size, arg_side_by_side args, queue));
  if side : bool then side_by_side args output queue (SizeSpec size)
  else
    documents ← render_queue args (SizeSpec size) queue [];
    ok ← write output documents true;
    if ok : bool then mret tt else cancel 1.

(** *** [excepthook] and the process

    The traceback that [print_exception] writes to standard error is
    not part of the terminal log. *)

Definition excepthook (e : Exn) : M unit :=
  match e with
  | RuntimeError msg =>
      if negb (String.eqb msg EmptyString)
      then cprint msg (Some "yellow") nl
      else
        cprint "Sorry, something's wrong! Let sysadmins@cs50.harvard.edu know!"
               (Some "yellow") nl
  | _ =>
      cprint "Sorry, something's wrong! Let sysadmins@cs50.harvard.edu know!"
             (Some "yellow") nl
  end;;
  cancel 1.

(** The exit status of the process and the world it leaves. *)
Definition run (args : Args) (w : World) : Z * World :=
  match main args w with
  | (Ok _, w') => (0%Z, w')
  | (Raised (SystemExit code), w') => (code, w')
  | (Raised e, w') =>
      match excepthook e w' with
      | (Raised (SystemExit code), w'') => (code, w'')
      | (_, w'') => (1%Z, w'')
      end
  end.

End Driver.

(** ** Notions the properties are stated with *)

(** *** Patterns *)

(** What [re.escape(i).replace("\*", ".*")] makes of a pattern, character
    by character: [.*] for a star, a backslash before every other
    character that [re.escape] escapes, and the character itself
    otherwise. *)
Fixpoint pattern_tokens (i : string) : string :=
  match i with
  | EmptyString => EmptyString
  | String c i' =>
      if Ascii.eqb c (chr 42)
      then String (chr 46) (String (chr 42) (pattern_tokens i'))
      else if is_special c
      then String backslash (String c (pattern_tokens i'))
      else String c (pattern_tokens i')
  end.

(** The same as a regular expression: any run of characters for a star,
    the character itself for every other one. *)
Fixpoint pattern_atoms (i : string) : list Atom :=
  match i with
  | EmptyString => []
  | String c i' =>
      (if Ascii.eqb c (chr 42) then AStar CAny else AChar (CLit c))
        :: pattern_atoms i'
  end.

(** [$] after the last of the alternatives [a :: rest]. *)
Fixpoint add_eol (a : list Atom) (rest : list (list Atom)) : Regex :=
  match rest with
  | [] => [a ++ [AEol]]
  | b :: rest' => a :: add_eol b rest'
  end.

(** The alternatives of ["^" + "|".join(patterns) + "$"]: [^] belongs to
    the first and [$] to the last.  With no pattern the expression is
    [^$]. *)
Definition anchor_ends (alts : list (list Atom)) : Regex :=
  match alts with
  | [] => [[ABol; AEol]]
  | a :: rest => add_eol (ABol :: a) rest
  end.

(** Whether the filters of lines 132-145 keep a candidate: with include
    patterns the search for them has to succeed, with exclude patterns
    the search for them has to fail. *)
Definition keeps_candidate (include exclude : list string)
    (candidate : string) : bool :=
  (if bool_decide (include ≠ [])
   then search_from (anchor_ends (pattern_atoms <$> include)) true candidate
   else true)
  && negb (if bool_decide (exclude ≠ [])
           then search_from (anchor_ends (pattern_atoms <$> exclude)) true
                            candidate
           else false).

(** Whether a path holds a line feed. *)
Fixpoint has_newline (s : string) : bool :=
  match s with
  | EmptyString => false
  | String c s' => Ascii.eqb c newline || has_newline s'
  end.

(** Whether a pattern holds a star. *)
Fixpoint has_star (p : string) : bool :=
  match p with
  | EmptyString => false
  | String c p' => Ascii.eqb c (chr 42) || has_star p'
  end.

(** Matching a whole path against a pattern in which a star stands for
    any run of characters and every other character for itself. *)
Fixpoint wildcard (p : string) : string → bool :=
  match p with
  | EmptyString => λ s, String.eqb s EmptyString
  | String c p' =>
      if Ascii.eqb c (chr 42) then
        fix star (s : string) : bool :=
          wildcard p' s
          || match s with
             | String _ s' => star s'
             | EmptyString => false
             end
      else λ s,
        match s with
        | String d s' => Ascii.eqb c d && wildcard p' s'
        | EmptyString => false
        end
  end.

(** *** The stages of [main] *)


(** Lines 120-122: a path is a file, a URL or a directory. *)
Definition recognized (w : World) (path : string) : bool :=
  os_path_isfile w path || is_url path || os_path_isdir w path.

(** What a path adds to the candidates in lines 120-128. *)
Definition path_entries (E : Env) (w : World) (path : string) : list string :=
  if os_path_isfile w path || is_url path then [path]
  else natsorted (walk_files E path).

(** An answer that is neither a yes nor a no. *)
Definition undecided (s : string) : Prop :=
  is_yes s = false ∧ is_no s = false.

(** The three ways out of the loop of lines 178-186: the user declines,
    [os.makedirs] fails, or standard input ends. *)
Definition loop_exit (dirname : string) (e : Exn) : Prop :=
  e = SystemExit 0
  ∨ e = RuntimeError ("Could not create " +:+ dirname +:+ ".")
  ∨ e = PyError "EOFError".


(** *** Computations *)


(** [m] only writes to the terminal: files, descriptors and standard
    input stay as they are. *)
Definition tty_only {A} (m : M A) : Prop :=
  ∀ w, ∃ events, (m w).2 = logged w events.

(** *** [render] and [concatenate] *)

(** Whether one of the bytes is zero. *)
Definition has_zero_byte (bs : bytes) : bool :=
  existsb (λ b, (Byte.to_N b =? 0)%N) bs.

(** Lines 474-486: the markup handed to WeasyPrint for [code]. *)
Definition highlighted (E : Env) (filename : string) (code : text)
    (color : bool) : text :=
  if strip_nonempty code && color
  then highlight E code (pick_lexer E filename code)
  else highlight E code TextLexer.

(** Lines 490-498: the stylesheets of a highlighted document. *)
Definition page_styles (title fontSize margin : string) (size : Size)
  : list CSS :=
  [CssPageHeader margin size; CssTopRight title; CssMonospace fontSize;
   CssPygmentsDefs; CssHighlightBackground; CssLinenos; CssLinenosAfter].

(** Whether [path] holds a PDF that may be read. *)
Definition stored_as_pdf (w : World) (path : string) : bool :=
  match files w !! path with
  | Some (NFile true (PdfData _)) => true
  | _ => false
  end.

(** *** The address patterns of [get]

    Lines 376-384 match the address against two patterns with groups.
    Their syntax: literal characters, [.], a negated set, sequences,
    [?] and [+] (both greedy), capturing groups and the two anchors. *)

Inductive Rx :=
| REps
| RChar (c : ascii)
| RAny
| RNone (cs : list ascii)
| RSeq (r1 r2 : Rx)
| ROpt (r : Rx)
| RPlus (r : Rx)
| RGroup (n : nat) (r : Rx)
| RBol
| REol.

(** A sequence, and a literal text as one. *)
Fixpoint rx_seq (rs : list Rx) : Rx :=
  match rs with
  | [] => REps
  | [r] => r
  | r :: rs' => RSeq r (rx_seq rs')
  end.

Definition rx_str (s : string) : Rx :=
  rx_seq (RChar <$> list_ascii_of_string s).

(** The text of the groups that took part in a match, latest first. *)
Definition Groups := list (nat * string).

(** What is left to match: whether [^] holds, the rest of the subject,
    the groups so far. *)
Definition Cont := bool → string → Groups → option Groups.

(** The part of [s] in front of its suffix [s']. *)
Definition consumed (s s' : string) : string :=
  substring 0 (String.length s - String.length s') s.

(** Backtracking matching: [rx_match r k] matches [r] and then [k]; a
    greedy operator tries the longer match first. *)
Fixpoint rx_match (r : Rx) (k : Cont) {struct r} : Cont :=
  match r with
  | REps => k
  | RChar c => λ _ s g,
      match s with
      | String d s' => if Ascii.eqb c d then k false s' g else None
      | EmptyString => None
      end
  | RAny => λ _ s g,
      match s with
      | String d s' => if Ascii.eqb d newline then None else k false s' g
      | EmptyString => None
      end
  | RNone cs => λ _ s g,
      match s with
      | String d s' => if existsb (Ascii.eqb d) cs then None else k false s' g
      | EmptyString => None
      end
  | RSeq r1 r2 => rx_match r1 (rx_match r2 k)
  | ROpt r' => λ bol s g,
      match rx_match r' k bol s g with
      | Some m => Some m
      | None => k bol s g
      end
  | RPlus r' => λ bol s g,
      (fix more (n : nat) : Cont :=
         rx_match r'
           (λ bol' s' g',
              match n with
              | S n' =>
                  match more n' bol' s' g' with
                  | Some m => Some m
                  | None => k bol' s' g'
                  end
              | O => k bol' s' g'
              end))
        (String.length s) bol s g
  | RGroup n r' => λ bol s g,
      rx_match r' (λ bol' s' g', k bol' s' ((n, consumed s s') :: g')) bol s g
  | RBol => λ bol s g, if bol then k bol s g else None
  | REol => λ bol s g, if at_eol s then k bol s g else None
  end.

(** [re.search(r, s)]: the first position with a match. *)
Fixpoint rx_search (r : Rx) (bol : bool) (s : string) : option Groups :=
  match rx_match r (λ _ _ g, Some g) bol s [] with
  | Some m => Some m
  | None =>
      match s with
      | String _ s' => rx_search r false s'
      | EmptyString => None
      end
  end.

(** [matches.group(n)] *)
Fixpoint rx_group (m : Groups) (n : nat) : option string :=
  match m with
  | [] => None
  | (i, s) :: m' => if (n =? i)%nat then Some s else rx_group m' n
  end.

(** ["{}".format(matches.group(n))] *)
Definition format_group (m : Groups) (n : nat) : string :=
  match rx_group m n with
  | Some s => s
  | None => "None"
  end.

(** [^(https?://github.com/[^/]+/[^/]+)/blob/(.+)$] *)
Definition github_blob : Rx :=
  rx_seq
    [RBol;
     RGroup 1
       (rx_seq [rx_str "http"; ROpt (RChar "s"); rx_str "://github"; RAny;
                rx_str "com/"; RPlus (RNone ["/"%char]); RChar "/";
                RPlus (RNone ["/"%char])]);
     rx_str "/blob/"; RGroup 2 (RPlus RAny); REol].

(** [^(https?://gist.github.com/[^/]+/[^/#]+/?)(?:#file-(.+))?$] *)
Definition gist : Rx :=
  rx_seq
    [RBol;
     RGroup 1
       (rx_seq [rx_str "http"; ROpt (RChar "s"); rx_str "://gist"; RAny;
                rx_str "github"; RAny; rx_str "com/";
                RPlus (RNone ["/"%char]); RChar "/";
                RPlus (RNone ["/"%char; "#"%char]); ROpt (RChar "/")]);
     ROpt (rx_seq [rx_str "#file-"; RGroup 2 (RPlus RAny)]); REol].

(** Lines 376-384: the address the request goes to. *)
Definition raw_location (file : string) : string :=
  let file :=
    match rx_search github_blob true file with
    | Some matches =>
        format_group matches 1 +:+ "/raw/" +:+ format_group matches 2
    | None => file
    end in
  match rx_search gist true file with
  | Some matches =>
      let file := format_group matches 1 +:+ "/raw" in
      match rx_group matches 2 with
      | Some name =>
          if String.eqb name EmptyString then file
          else file +:+ "/" +:+ format_group matches 2
      | None => file
      end
  | None => file
  end.

(** A stretch of an address: not empty, none of the characters [cs]. *)
Definition stretch (cs : list ascii) (s : string) : Prop :=
  s ≠ EmptyString
  ∧ forallb (λ d, negb (existsb (Ascii.eqb d) cs)) (list_ascii_of_string s)
    = true.

(** [http] or [https]. *)
Definition scheme (secure : bool) : string :=
  if secure then "https" else "http".

(** A Gist address: the owner, the identifier, a slash or none, and the
    fragment that names a file or none. *)
Definition gist_address (secure : bool) (user id : string) (slash : bool)
    (name : option string) : string :=
  scheme secure +:+ "://gist.github.com/" +:+ user +:+ "/" +:+ id
  +:+ (if slash then "/" else "")
  +:+ match name with Some n => "#file-" +:+ n | None => "" end.

(** Lines 386-392: what [get] does with the answer to the request for
    [file]. *)
Definition fetched (E : Env) (file : string) (w : World) : Res text * World :=
  match requests_get E file with
  | Ok (status, body) =>
      if (status =? 200)%Z then (Ok body, w)
      else (Raised (RuntimeError ("Could not GET " +:+ file +:+ ".")),
            logged w [printed clear_line None cr_end])
  | Raised e => (Raised e, w)
  end.

(** [r] matches exactly one character, those that [p] accepts. *)
Definition one_char (r : Rx) (p : ascii → bool) : Prop :=
  ∀ k bol s g,
    rx_match r k bol s g
    = match s with
      | String d s' => if p d then k false s' g else None
      | EmptyString => None
      end.

(** Where a run of characters of the class ends. *)
Definition run_end (p : ascii → bool) (tail : string) : Prop :=
  match tail with
  | String d _ => p d = false
  | EmptyString => True
  end.

(** ** A small concrete environment

    Libraries and a file system small enough to run the driver on. *)
Module Toy.

Definition text_of_string (s : string) : text :=
  N_of_ascii <$> list_ascii_of_string s.

Definition string_of_text (t : text) : string :=
  string_of_list_ascii (ascii_of_N <$> t).

Definition bytes_of_string (s : string) : bytes :=
  byte_of_ascii <$> list_ascii_of_string s.

(** The page box a stylesheet list asks for, in CSS pixels; letter
    landscape unless a pixel or point size is given. *)
Fixpoint page_box (css : list CSS) : Q * Q :=
  match css with
  | [] => (1056, 816)%Q
  | (CssPageSize sz | CssPageMarginSize _ sz | CssPageHeader _ sz) :: _ =>
      match sz with
      | SizePx w h => (inject_Z w, inject_Z h)
      | SizePt w h => (w * (4 # 3), h * (4 # 3))%Q
      | SizeSpec _ => (1056, 816)%Q
      end
  | _ :: css' => page_box css'
  end.

(** One page, and one more for every form feed in the markup. *)
Definition engine (base_url : option string) (html : text) (css : list CSS)
  : Res Document :=
  let '(w, h) := page_box css in
  let n := length (filter (λ c, c = 12%N) html) in
  Ok (mkDocument
        ((λ i, mkWPage w h (string_of_text html +:+ "#" +:+ pretty i) [])
           <$> seq 0 (S n))).

Definition listing (expression : string) : list string :=
  if String.eqb expression "*.txt" then ["b.txt"; "a10.txt"; "A9.txt"]
  else if String.eqb expression "http*" then ["httpd.conf"]
  else if String.eqb expression "src" then ["src"]
  else if bool_decide (expression ∈ ["a.txt"; "b.txt"; "blob.bin"; "a10.txt";
                                     "A9.txt"; "x.py.bak"])
  then [expression]
  else [].

Definition env : Env :=
  {| braceexpand := λ p, if String.eqb p "{b,a}.txt"
                         then Ok ["b.txt"; "a.txt"] else Ok [p];
     glob := listing;
     os_walk := λ p, if String.eqb p "src"
                     then [("src", ["lib"], ["main.py"; "Makefile"]);
                           ("src/lib", [], ["util10.py"; "util9.py"])]
                     else [];
     os_path_realpath := λ p, "/home/user/" +:+ p;
     os_path_normjoin := os_path_join;
     urljoin := λ a b, a +:+ b;
     raw_url := λ u, u;
     requests_get := λ u, Ok (if String.eqb u "http://example.org/a.py"
                              then 200%Z else 404%Z,
                              text_of_string "print(1)");
     BeautifulSoup := λ t, Ok (mkSoup [] (Ok t) t);
     get_lexer_for_filename := λ f, if endswith ".py" f
                                    then Some (NamedLexer "python") else None;
     guess_lexer := λ _, None;
     highlight := λ code _, code;
     HTML_render := engine;
     pdf_serialize := λ _, bytes_of_string "%PDF" |}.

Definition ff : string := String (chr 12) EmptyString.

Definition disk : gmap string Node :=
  list_to_map
    [("a.txt", NFile true (RawData (bytes_of_string "alpha")));
     ("b.txt",
      NFile true (RawData (bytes_of_string ("beta" +:+ ff +:+ "gamma"))));
     ("a10.txt", NFile true (RawData (bytes_of_string "ten")));
     ("A9.txt", NFile true (RawData (bytes_of_string "nine")));
     ("x.py.bak", NFile true (RawData (bytes_of_string "old")));
     ("httpd.conf", NFile true (RawData (bytes_of_string "Listen 80")));
     ("blob.bin", NFile true (RawData [x00; x01; x02]));
     ("secret", NFile false (RawData (bytes_of_string "hidden")));
     ("src", NDir);
     ("/home/user", NDir);
     ("out.pdf", NFile true (RawData (bytes_of_string "previous")))].

Definition world : World := mkWorld disk ∅ [] [].

Definition args : Args :=
  {| arg_browser := false; arg_force := false; arg_no_color := false;
     arg_include := []; arg_output := "out.pdf"; arg_no_path := false;
     arg_recursive := false; arg_size := None; arg_exclude := [];
     arg_side_by_side := false; arg_INPUT := [] |}.

(** A text file, a binary one and a second text file, [--force]. *)
Definition args_batch : Args :=
  {| arg_browser := false; arg_force := true; arg_no_color := false;
     arg_include := []; arg_output := "new"; arg_no_path := false;
     arg_recursive := false; arg_size := None; arg_exclude := [];
     arg_side_by_side := false;
     arg_INPUT := ["a.txt"; "blob.bin"; "b.txt"] |}.

(** [-y] with a one-page and a two-page text file. *)
Definition args_two_columns : Args :=
  {| arg_browser := false; arg_force := false; arg_no_color := false;
     arg_include := []; arg_output := "new.pdf"; arg_no_path := false;
     arg_recursive := false; arg_size := None; arg_exclude := [];
     arg_side_by_side := true; arg_INPUT := ["a.txt"; "b.txt"] |}.

(** The pages of the PDF stored at a path, if there is one. *)
Definition stored_pdf (w : World) (path : string) : option (list PdfPage) :=
  match files w !! path with
  | Some (NFile _ (PdfData pdf)) => Some pdf
  | _ => None
  end.

(** What the toy engine puts on page [i] of [b.txt]. *)
Definition b_page (i : string) : string :=
  "beta" +:+ ff +:+ "gamma#" +:+ i.

(** Its content streams, page by page. *)
Definition stored_fragments (w : World) (path : string)
  : option (list (list string)) :=
  (λ pdf : list PdfPage, (λ p : PdfPage, frag <$> contents p) <$> pdf)
    <$> stored_pdf w path.

(** [-y] with a text file and a binary one. *)
Definition args_side_by_side : Args :=
  {| arg_browser := false; arg_force := false; arg_no_color := false;
     arg_include := []; arg_output := "new.pdf"; arg_no_path := false;
     arg_recursive := false; arg_size := None; arg_exclude := [];
     arg_side_by_side := true; arg_INPUT := ["a.txt"; "blob.bin"] |}.

(** Three stored PDFs of one, two and three pages. *)
Definition sheet (label : string) (w h : Q) : PdfPage :=
  mkPdfPage (mkBox 0 0 w h) [mkPlaced label 0 0].

Definition left_pdf : list PdfPage := [sheet "L1" 396 612].

Definition mid_pdf : list PdfPage := [sheet "M1" 264 612; sheet "M2" 264 612].

Definition right_pdf : list PdfPage :=
  [sheet "R1" 264 612; sheet "R2" 264 612; sheet "R3" 264 612].

Definition shelf : World :=
  mkWorld (list_to_map [("left.pdf", NFile true (PdfData left_pdf));
                        ("mid.pdf", NFile true (PdfData mid_pdf));
                        ("right.pdf", NFile true (PdfData right_pdf))])
          ∅ [] [].

(** The blank page the toy engine renders at 396pt by 612pt. *)
Definition blank_sheet : WPage :=
  mkWPage (396 * (4 # 3)) (612 * (4 # 3)) "#0" [].

(** [a.txt] and a name that [glob] lists although nothing is there, as
    for a dangling symbolic link. *)
Definition args_stale : Args :=
  {| arg_browser := false; arg_force := false; arg_no_color := false;
     arg_include := []; arg_output := "new.pdf"; arg_no_path := false;
     arg_recursive := false; arg_size := None; arg_exclude := [];
     arg_side_by_side := false; arg_INPUT := ["a.txt"; "x.py.bak"] |}.

(** The disk without [x.py.bak]. *)
Definition stale : World := mkWorld (delete "x.py.bak" disk) ∅ [] [].

(** Standard input holding the given lines. *)
Definition typed (lines : list string) : World :=
  mkWorld disk ∅ lines [].

(** The small environment with the address rewriting of [get] in place,
    and one raw address that answers. *)
Definition web : Env :=
  {| braceexpand := braceexpand env;
     glob := glob env;
     os_walk := os_walk env;
     os_path_realpath := os_path_realpath env;
     os_path_normjoin := os_path_normjoin env;
     urljoin := urljoin env;
     raw_url := raw_location;
     requests_get :=
       λ u, Ok (if String.eqb u "https://github.com/u/r/raw/main/a.py"
                then 200%Z else 404%Z,
                text_of_string "print(1)");
     BeautifulSoup := BeautifulSoup env;
     get_lexer_for_filename := get_lexer_for_filename env;
     guess_lexer := guess_lexer env;
     highlight := highlight env;
     HTML_render := HTML_render env;
     pdf_serialize := pdf_serialize env |}.

End Toy.

(** * Properties *)

(** Running the monad one step at a time. *)
Ltac munfold :=
  unfold cancel, sys_exit, cprint in *;
  unfold mbind, M_bind, fmap, M_fmap, mret, M_ret, bind, ret, raise, lift,
    get_world, set_files, log in *.

Lemma logged_logged w ev1 ev2 :
  logged (logged w ev1) ev2 = logged w (ev1 ++ ev2).
Proof. unfold logged; cbn. by rewrite <- app_assoc. Qed.

Lemma files_logged w ev : files (logged w ev) = files w.
Proof. reflexivity. Qed.

Lemma bind_ok {A B} (m : M A) (k : A → M B) w a w1 :
  m w = (Ok a, w1) → (m ≫= k) w = k a w1.
Proof. intros H. unfold mbind, M_bind, bind. by rewrite H. Qed.

Lemma list_bind_concat {A B} (f : A → list B) (l : list A) :
  l ≫= f = concat (f <$> l).
Proof. induction l as [|x l IH]; [done|]. cbn. by rewrite IH. Qed.

Lemma write_run output d ds echo w :
  write output (d :: ds) echo w
  = (Ok true,
     mkWorld
       (<[output := NFile true
                      (PdfData (pdf_of_wpage <$> concat (pages <$> d :: ds)))]>
          (files w))
       (open_fds w) (stdin w)
       (tty w ++ if echo
                 then [printed ("Rendered " +:+ output +:+ ".")
                               (Some "green") nl]
                 else [])).
Proof.
  unfold write, write_pdf. rewrite list_bind_concat. munfold.
  destruct echo; cbn; [done|]. by rewrite app_nil_r.
Qed.


Lemma index_run {A} (l : list A) i x w :
  l !! i = Some x → index l i w = (Ok x, w).
Proof. intros H. unfold index. by rewrite H. Qed.



Section Decoder.

Lemma in_range_spec lo hi b :
  in_range lo hi b = true ↔ (lo <= b ∧ b <= hi)%N.
Proof.
  unfold in_range. rewrite andb_true_iff, !N.leb_le. done.
Qed.

Lemma decode_utf8_ignore_ascii (bs : bytes) :
  Forall (λ b, (Byte.to_N b < 128)%N) bs →
  decode_utf8_ignore bs = Byte.to_N <$> bs.
Proof.
  induction 1 as [|b bs Hb _ IH]; [done|].
  cbn [decode_utf8_ignore]. apply N.ltb_lt in Hb. rewrite Hb.
  cbn. by rewrite IH.
Qed.

(** Whatever the bytes, decoding yields scalar values only: overlong
    forms, surrogates and values above U+10FFFF never come out. *)
Lemma decode_utf8_ignore_scalar (bs : bytes) :
  Forall is_scalar (decode_utf8_ignore bs).
Proof.
  assert (H : ∀ n (bs : bytes), (List.length bs ≤ n)%nat →
                Forall is_scalar (decode_utf8_ignore bs)).
  { clear bs. induction n as [|n IH]; intros bs Hlen.
    - destruct bs; [constructor|cbn in Hlen; lia].
    - destruct bs as [|b0 r0]; [constructor|].
      cbn in Hlen. cbn [decode_utf8_ignore].
      assert (H0 : Forall is_scalar (decode_utf8_ignore r0))
        by (apply IH; lia).
      destruct (Byte.to_N b0 <? 128)%N eqn:Hascii.
      { constructor; [|done]. apply N.ltb_lt in Hascii.
        unfold is_scalar. lia. }
      destruct r0 as [|b1 r1]; [constructor|].
      assert (H1 : Forall is_scalar (decode_utf8_ignore r1))
        by (apply IH; cbn in Hlen |- *; lia).
      destruct (in_range 194 223 (Byte.to_N b0)) eqn:Hlead2.
      { destruct (in_range 128 191 (Byte.to_N b1)) eqn:Hc1; [|done].
        constructor; [|done].
        apply in_range_spec in Hlead2, Hc1. unfold is_scalar, cont. lia. }
      destruct (in_range 224 239 (Byte.to_N b0)) eqn:Hlead3.
      { destruct (in_range _ _ (Byte.to_N b1)) eqn:Hc1; [|done].
        destruct r1 as [|b2 r2]; [constructor|].
        destruct (in_range 128 191 (Byte.to_N b2)) eqn:Hc2; [|done].
        constructor; [|apply IH; cbn in Hlen |- *; lia].
        apply in_range_spec in Hlead3, Hc1, Hc2. unfold is_scalar, cont.
        destruct (N.eqb_spec (Byte.to_N b0) 224);
          destruct (N.eqb_spec (Byte.to_N b0) 237); lia. }
      destruct (in_range 240 244 (Byte.to_N b0)) eqn:Hlead4; [|done].
      destruct (in_range _ _ (Byte.to_N b1)) eqn:Hc1; [|done].
      destruct r1 as [|b2 r2]; [constructor|].
      destruct (in_range 128 191 (Byte.to_N b2)) eqn:Hc2; [|done].
      destruct r2 as [|b3 r3]; [constructor|].
      destruct (in_range 128 191 (Byte.to_N b3)) eqn:Hc3; [|done].
      constructor; [|apply IH; cbn in Hlen |- *; lia].
      apply in_range_spec in Hlead4, Hc1, Hc2, Hc3. unfold is_scalar, cont.
      destruct (N.eqb_spec (Byte.to_N b0) 240);
        destruct (N.eqb_spec (Byte.to_N b0) 244); lia. }
  by apply (H (List.length bs)).
Qed.

End Decoder.

Section Fetcher.

Variable E : Env.

Lemma read_bytes_logged file w ev :
  read_bytes E file (logged w ev)
  = (fst (read_bytes E file w), logged (snd (read_bytes E file w)) ev).
Proof.
  unfold read_bytes; rewrite files_logged.
  destruct (files w !! file) as [[[] data|]|]; reflexivity.
Qed.


End Fetcher.

Section Writer.


End Writer.

Section Renderer.

Variable E : Env.

Lemma get_ok_logged file w code ev :
  (get E file w).1 = Ok code →
  get E file (logged w ev) = (Ok code, logged w ev).
Proof.
  unfold get, try_except. munfold.
  destruct (is_url file).
  - destruct (requests_get E (raw_url E file)) as [[status body]|e]; cbn;
      [|done].
    destruct (status =? 200)%Z; cbn; [|done]. by intros [= ->].
  - rewrite read_bytes_logged.
    destruct (read_bytes E file w) as [[bs|e] w1] eqn:Hread; cbn.
    + intros [= <-]. unfold read_bytes in Hread.
      destruct (files w !! file) as [[[] data|]|]; by simplify_eq.
    + destruct e as [| |ty]; cbn; try done.
      repeat case_match; done.
Qed.


End Renderer.

Section NaturalOrder.


Lemma chunk_compare_eq a b : chunk_compare a b = Eq → a = b.
Proof.
  destruct a, b; cbn; try done.
  - by intros ->%String.compare_eq_iff.
  - by intros ->%N.compare_eq_iff.
Qed.

Lemma chunk_compare_refl a : chunk_compare a a = Eq.
Proof.
  destruct a as [s|n]; cbn.
  - pose proof (String.compare_antisym s s) as H.
    destruct (String.compare s s); done.
  - apply N.compare_refl.
Qed.

Lemma chunk_compare_lt_trans a b c :
  chunk_compare a b = Lt → chunk_compare b c = Lt → chunk_compare a c = Lt.
Proof.
  destruct a, b, c; cbn; try done.
  - intros H1 H2.
    apply OrderedTypeEx.String_as_OT.cmp_lt.
    apply OrderedTypeEx.String_as_OT.cmp_lt in H1, H2.
    by eapply OrderedTypeEx.String_as_OT.lt_trans.
  - rewrite !N.compare_lt_iff. lia.
Qed.



Lemma key_compare_refl k : key_compare k k = Eq.
Proof. induction k as [|a k IH]; cbn; by rewrite ?chunk_compare_refl. Qed.

Lemma key_compare_le_trans k1 k2 k3 :
  key_compare k1 k2 ≠ Gt → key_compare k2 k3 ≠ Gt → key_compare k1 k3 ≠ Gt.
Proof.
  revert k2 k3; induction k1 as [|a k1 IH]; intros [|b k2] [|c k3]; cbn;
    try done.
  destruct (chunk_compare a b) eqn:Hab; try done;
    destruct (chunk_compare b c) eqn:Hbc; try done; intros H1 H2.
  - apply chunk_compare_eq in Hab as ->. rewrite Hbc. by eapply IH.
  - apply chunk_compare_eq in Hab as ->. by rewrite Hbc.
  - apply chunk_compare_eq in Hbc as <-. by rewrite Hab.
  - by rewrite (chunk_compare_lt_trans _ _ _ Hab Hbc).
Qed.


#[local] Instance natsort_le_trans : Transitive natsort_le.
Proof.
  intros x y z; unfold natsort_le, natsort_leb.
  pose proof (key_compare_le_trans (natsort_key x) (natsort_key y)
                (natsort_key z)) as H.
  destruct (key_compare (natsort_key x) (natsort_key y)),
    (key_compare (natsort_key y) (natsort_key z)),
    (key_compare (natsort_key x) (natsort_key z)); naive_solver.
Qed.


Lemma insert_sorted_perm x l : insert_sorted natsort_leb x l ≡ₚ x :: l.
Proof.
  induction l as [|y l IH]; cbn; [done|].
  destruct (natsort_leb x y); [done|]. rewrite IH. apply Permutation_swap.
Qed.


Lemma natsorted_perm l : natsorted l ≡ₚ l.
Proof.
  induction l as [|x l IH]; cbn; [done|].
  by rewrite insert_sorted_perm, IH.
Qed.



End NaturalOrder.

Section Resolver.

Variable E : Env.

Lemma foldl_glob paths expressions :
  foldl (λ acc expression, acc ++ natsorted (glob E expression)) paths
        expressions
  = paths ++ sorted_matches E expressions.
Proof.
  unfold sorted_matches.
  revert paths; induction expressions as [|e es IH]; intros paths; cbn.
  - by rewrite app_nil_r.
  - by rewrite IH, <- app_assoc.
Qed.

(** One round of the loop of lines 110-115. *)
Lemma glob_patterns_step pattern patterns paths expressions w :
  expansions E pattern = Ok expressions →
  glob_patterns E (pattern :: patterns) paths w
  = glob_patterns E patterns
      (paths ++ url_part pattern ++ sorted_matches E expressions) w.
Proof.
  unfold expansions, url_part. cbn. munfold. intros Hexp.
  destruct (String.eqb pattern EmptyString) eqn:Hempty.
  - apply String.eqb_eq in Hempty as ->. simplify_eq. cbn.
    by rewrite app_nil_r.
  - rewrite Hexp. rewrite foldl_glob.
    destruct (is_url pattern); cbn; by rewrite <- ?app_assoc.
Qed.

Lemma glob_patterns_prefix patterns paths w result w' :
  glob_patterns E patterns paths w = (Ok result, w') →
  ∃ more, result = paths ++ more.
Proof.
  revert paths; induction patterns as [|pattern patterns IH]; intros paths.
  - cbn. munfold. intros [= <- <-]. exists []. by rewrite app_nil_r.
  - destruct (expansions E pattern) as [expressions|e] eqn:Hexp.
    + rewrite (glob_patterns_step _ _ _ _ _ Hexp).
      intros [more ->]%IH. rewrite <- app_assoc. by eexists.
    + unfold expansions in Hexp. cbn. munfold.
      destruct (String.eqb pattern EmptyString); [done|]. by rewrite Hexp.
Qed.

Lemma elem_of_concat {A} (x : A) (ls : list (list A)) :
  x ∈ concat ls ↔ ∃ l, x ∈ l ∧ l ∈ ls.
Proof.
  induction ls as [|l ls IH]; cbn.
  - split; [by intros ?%elem_of_nil|by intros (? & _ & ?%elem_of_nil)].
  - rewrite elem_of_app, IH. split.
    + intros [H|(l' & H1 & H2)].
      * exists l. split; [done|]. apply elem_of_cons. by left.
      * exists l'. split; [done|]. apply elem_of_cons. by right.
    + intros (l' & H1 & [->|H2]%elem_of_cons); [by left|right; by exists l'].
Qed.

Lemma startswith_http_nonempty pattern :
  startswith "http" pattern = true → String.eqb pattern EmptyString = false.
Proof. by destruct pattern. Qed.

(** C10: a pattern that starts with [http] is appended as it is, and it
    still goes through brace and glob expansion: the sorted matches of
    each of its expansions are appended right after it, so every local
    file such a pattern matches is in the resolved list as well. *)
Theorem url_pattern_also_globbed (pattern : string) (patterns : list string)
    (paths expressions : list string) (w : World) :
  startswith "http" pattern = true →
  braceexpand E pattern = Ok expressions →
  glob_patterns E (pattern :: patterns) paths w
  = glob_patterns E patterns
      (paths ++ [pattern] ++ sorted_matches E expressions) w
  ∧ ∀ result w',
      glob_patterns E (pattern :: patterns) paths w = (Ok result, w') →
      pattern ∈ result
      ∧ ∀ expression file,
          expression ∈ expressions → file ∈ glob E expression →
          file ∈ result.
Proof.
  intros Hhttp Hbrace.
  assert (Hstep : glob_patterns E (pattern :: patterns) paths w
    = glob_patterns E patterns
        (paths ++ [pattern] ++ sorted_matches E expressions) w).
  { rewrite (glob_patterns_step _ _ _ expressions).
    - unfold url_part, is_url. by rewrite Hhttp.
    - unfold expansions. by rewrite (startswith_http_nonempty _ Hhttp). }
  split; [exact Hstep|].
  intros result w'. rewrite Hstep. intros [more ->]%glob_patterns_prefix.
  split; [set_solver|].
  intros expression file Hexpr Hfile.
  apply elem_of_app; left. apply elem_of_app; right.
  apply elem_of_app; right. unfold sorted_matches.
  apply elem_of_concat. exists (natsorted (glob E expression)).
  split; [by rewrite natsorted_perm|].
  apply list_elem_of_fmap. by exists expression.
Qed.



End Resolver.

Section Filters.

(** C3 (the code departs from it): with two patterns the joined
    expression is [^.*\.py|.*\.txt$]; the bar binds weaker than the
    anchors, so the first alternative is tied to the start only and the
    last to the end only.  [x.py.bak] matches neither [*.py] nor [*.txt]
    from end to end, yet the include filter keeps it and the exclude
    filter drops it. *)
Theorem joined_patterns_lose_anchors (w : World) :
  let patterns := translate_patterns ["*.py"; "*.txt"] in
  anchored patterns
  = "^.*" +:+ String backslash ".py|.*" +:+ String backslash ".txt$"
  ∧ matches_anchored "*.py" "x.py.bak" = Ok false
  ∧ matches_anchored "*.txt" "x.py.bak" = Ok false
  ∧ filter_candidates patterns [] ["x.py.bak"] [] w = (Ok ["x.py.bak"], w)
  ∧ filter_candidates [] patterns ["x.py.bak"] [] w = (Ok [], w).
Proof. repeat split. Qed.

Lemma input_run prompt line w :
  input prompt (mkWorld (files w) (open_fds w) (line :: stdin w) (tty w))
  = (Ok line, logged w [Prompted prompt]).
Proof. reflexivity. Qed.

(** The bound on the rounds of the loop is never reached: any bound at
    least the number of lines left gives the same run. *)
Lemma overwrite_loop_fuel output n w :
  (List.length (stdin w) ≤ n)%nat →
  overwrite_loop output n w
  = overwrite_loop output (List.length (stdin w)) w.
Proof.
  destruct w as [fs fds lines events]; cbn [stdin].
  revert n events; induction lines as [|s lines IH]; intros n events Hn.
  - by destruct n.
  - destruct n as [|n]; [cbn in Hn; lia|]. cbn in Hn. cbn [List.length].
    cbn [overwrite_loop].
    rewrite !(bind_ok _ _ _ s
                (mkWorld fs fds lines
                         (events ++ [Prompted (overwrite_prompt output)])))
      by done.
    destruct (is_yes s); [done|]. destruct (is_no s); [done|].
    apply IH. lia.
Qed.

(** An answer of yes ends the asking; the driver goes on. *)
Lemma overwrite_loop_yes output s w :
  is_yes s = true →
  overwrite_loop output (S (List.length (stdin w)))
    (mkWorld (files w) (open_fds w) (s :: stdin w) (tty w))
  = (Ok tt, logged w [Prompted (overwrite_prompt output)]).
Proof.
  intros Hyes. cbn [overwrite_loop].
  rewrite (bind_ok _ _ _ s (logged w [Prompted (overwrite_prompt output)]))
    by done.
  by rewrite Hyes.
Qed.

(** An answer of no cancels the run with exit status 0. *)
Lemma overwrite_loop_no output s w :
  is_yes s = false → is_no s = true →
  overwrite_loop output (S (List.length (stdin w)))
    (mkWorld (files w) (open_fds w) (s :: stdin w) (tty w))
  = (Raised (SystemExit 0),
     logged w [Prompted (overwrite_prompt output);
               printed "Rendering cancelled." (Some "red") nl]).
Proof.
  intros Hyes Hno. cbn [overwrite_loop].
  rewrite (bind_ok _ _ _ s (logged w [Prompted (overwrite_prompt output)]))
    by done.
  rewrite Hyes, Hno. unfold cancel, cprint, sys_exit.
  rewrite (bind_ok _ _ _ tt
             (logged w [Prompted (overwrite_prompt output);
                        printed "Rendering cancelled." (Some "red") nl])).
  - done.
  - unfold log. by rewrite logged_logged.
Qed.

(** C7 (amended): with [--force] nothing is asked and the driver goes on,
    whether or not the output exists.  Without it, when the inputs came
    from standard input and the output exists, nothing is asked either,
    but the run stops with "Output exists."; only with positional inputs
    is the user asked. *)
Theorem overwrite_confirmation (args : Args) (output : string) (w : World) :
  match arg_force args, arg_INPUT args with
  | true, _ => confirm_overwrite args output w = (Ok tt, w)
  | false, [] =>
      confirm_overwrite args output w
      = if os_path_exists w output
        then (Raised (RuntimeError "Output exists."), w)
        else (Ok tt, w)
  | false, _ :: _ =>
      confirm_overwrite args output w
      = if os_path_exists w output
        then overwrite_loop output (length (stdin w)) w
        else (Ok tt, w)
  end.
Proof.
  unfold confirm_overwrite. munfold.
  destruct (arg_force args), (arg_INPUT args), (os_path_exists w output);
    reflexivity.
Qed.

End Filters.

Section Compositor.

Variable E : Env.


Lemma mergeTranslatedPage_at_origin (left right : PdfPage) :
  at_origin left → at_origin right →
  at_origin (mergeTranslatedPage left right (urx (mediaBox left)) 0)
  ∧ (page_width (mergeTranslatedPage left right (urx (mediaBox left)) 0)
     == page_width left + page_width right)%Q.
Proof.
  unfold at_origin, page_width, mergeTranslatedPage; cbn.
  intros (Hlx & Hly & Hux & Huy) (Hlx' & Hly' & Hux' & Huy').
  set (tx := urx (mediaBox left)) in *.
  destruct (Q.min_spec (llx (mediaBox right) + tx) (urx (mediaBox right) + tx))
    as [[? Hm1]|[? Hm1]];
  destruct (Q.max_spec (llx (mediaBox right) + tx) (urx (mediaBox right) + tx))
    as [[? HM1]|[? HM1]];
  destruct (Q.min_spec (lly (mediaBox right) + 0) (ury (mediaBox right) + 0))
    as [[? Hm2]|[? Hm2]];
  destruct (Q.max_spec (lly (mediaBox right) + 0) (ury (mediaBox right) + 0))
    as [[? HM2]|[? HM2]];
  rewrite ?Hm1, ?HM1, ?Hm2, ?HM2;
  match goal with
  | |- context [Qmin (llx (mediaBox left)) ?a] =>
      destruct (Q.min_spec (llx (mediaBox left)) a) as [[? Hm3]|[? Hm3]]
  end;
  match goal with
  | |- context [Qmax tx ?a] =>
      destruct (Q.max_spec tx a) as [[? HM3]|[? HM3]]
  end;
  match goal with
  | |- context [Qmin (lly (mediaBox left)) ?a] =>
      destruct (Q.min_spec (lly (mediaBox left)) a) as [[? Hm4]|[? Hm4]]
  end;
  match goal with
  | |- context [Qmax (ury (mediaBox left)) ?a] =>
      destruct (Q.max_spec (ury (mediaBox left)) a) as [[? HM4]|[? HM4]]
  end;
  rewrite ?Hm3, ?HM3, ?Hm4, ?HM4; repeat split; lra.
Qed.

Lemma page_or_filler_at_origin page reader i :
  at_origin page → Forall at_origin reader →
  at_origin (page_or_filler page reader i).
Proof.
  intros Hpage Hreader. unfold page_or_filler.
  destruct (reader !! i) as [p|] eqn:Hp; [|done].
  eapply Forall_lookup_1; eauto.
Qed.

Lemma foldl_merge_right page i others left :
  at_origin page → Forall (Forall at_origin) others → at_origin left →
  at_origin (foldl (merge_right page i) left others)
  ∧ (page_width (foldl (merge_right page i) left others)
     == page_width left
        + Qsum (page_width <$> ((λ r, page_or_filler page r i) <$> others)))%Q.
Proof.
  intros Hpage Hothers; revert left.
  induction Hothers as [|reader others Hreader _ IH]; intros left Hleft; cbn.
  - split; [done|]. unfold Qsum; cbn. lra.
  - pose proof (page_or_filler_at_origin page reader i Hpage Hreader) as Hr.
    destruct (mergeTranslatedPage_at_origin left _ Hleft Hr) as [Hm Hw].
    destruct (IH (merge_right page i left reader) Hm) as [IH1 IH2].
    split; [exact IH1|]. rewrite IH2. unfold merge_right at 1. rewrite Hw.
    unfold Qsum. lra.
Qed.

Lemma merged_page_width page first others i :
  at_origin page → Forall at_origin first →
  Forall (Forall at_origin) others →
  at_origin (merged_page page first others i)
  ∧ (page_width (merged_page page first others i)
     == Qsum (page_width
                <$> ((λ r, page_or_filler page r i) <$> first :: others)))%Q.
Proof.
  intros Hpage Hfirst Hothers. unfold merged_page.
  apply (foldl_merge_right page i others) ; [done|done|].
  by apply page_or_filler_at_origin.
Qed.








End Compositor.

(** ** What a computation does to the files *)

Lemma files_fixed_ret {A} (a : A) : files_fixed (mret a).
Proof. by intros w. Qed.

Lemma files_fixed_raise {A} e : files_fixed (@raise A e).
Proof. by intros w. Qed.

Lemma files_fixed_lift {A} (r : Res A) : files_fixed (lift r).
Proof. by intros w. Qed.

Lemma files_fixed_cprint msg color ending :
  files_fixed (cprint msg color ending).
Proof. by intros w. Qed.

Lemma files_fixed_bind {A B} (m : M A) (k : A → M B) :
  files_fixed m → (∀ a, files_fixed (k a)) → files_fixed (m ≫= k).
Proof.
  intros Hm Hk w. unfold mbind, M_bind, bind.
  specialize (Hm w). destruct (m w) as [[a|e] w1]; cbn in *; [|done].
  by rewrite Hk.
Qed.

Lemma files_fixed_try_except {A} (m : M A) (h : Exn → M A) :
  files_fixed m → (∀ e, files_fixed (h e)) → files_fixed (try_except m h).
Proof.
  intros Hm Hh w. unfold try_except.
  specialize (Hm w). destruct (m w) as [[a|[msg|c|ty]] w1]; cbn in *;
    try done; by rewrite Hh.
Qed.

Lemma files_fixed_cancel {A} code : files_fixed (@cancel A code).
Proof. by intros w. Qed.

Lemma files_fixed_index {A} (l : list A) i : files_fixed (index l i).
Proof. intros w. unfold index. by destruct (l !! i). Qed.

Lemma files_fixed_read_bytes E file : files_fixed (read_bytes E file).
Proof.
  intros w. unfold read_bytes.
  by destruct (files w !! file) as [[[] ?|]|].
Qed.

Ltac fixed :=
  repeat first
    [ apply files_fixed_ret | apply files_fixed_raise | apply files_fixed_lift
    | apply files_fixed_cprint | apply files_fixed_cancel
    | apply files_fixed_index | apply files_fixed_read_bytes
    | apply files_fixed_bind; [|intros ?]
    | apply files_fixed_try_except; [|intros ?]
    | match goal with
      | |- files_fixed (if ?b then _ else _) => destruct b
      | |- files_fixed (match ?x with _ => _ end) => destruct x
      end ].

Lemma files_fixed_get E file : files_fixed (get E file).
Proof.
  unfold get. destruct (is_url file); [|by fixed].
  apply files_fixed_bind; [by fixed|]. intros req. by fixed.
Qed.

Lemma files_fixed_render E filename size browser color fontSize margin path
    relative :
  files_fixed
    (render E filename size browser color fontSize margin path relative).
Proof.
  unfold render, set_bookmark.
  apply files_fixed_bind; [by fixed|]. intros _.
  destruct browser.
  - apply files_fixed_bind; [|intros ?; by fixed].
    apply files_fixed_try_except; [|intros ?; by fixed].
    apply files_fixed_bind; [apply files_fixed_get|]. intros page.
    by fixed.
  - apply files_fixed_bind; [apply files_fixed_get|]. intros code.
    destruct (has_nul code); [by fixed|].
    apply files_fixed_bind; [by fixed|]. intros document.
    apply files_fixed_bind; [|intros ?; by fixed].
    destruct (pages document); by fixed.
Qed.

Lemma keeps_fixed p {A} (m : M A) : files_fixed m → keeps p m.
Proof. intros H w. by rewrite H. Qed.

(** The continuation may rely on a property [Q] of the value [m]
    returns, here: a new temporary file is not [p]. *)
Lemma keeps_bind_post p {A B} (Q : A → Prop) (m : M A) (k : A → M B) :
  keeps p m →
  (∀ w a, is_Some (files w !! p) → (m w).1 = Ok a → Q a) →
  (∀ a, Q a → keeps p (k a)) →
  keeps p (m ≫= k).
Proof.
  intros Hm HQ Hk w Hp. unfold mbind, M_bind, bind.
  specialize (Hm w Hp). specialize (HQ w).
  destruct (m w) as [[a|e] w1]; cbn in *; [|done].
  by apply Hk; [apply HQ|].
Qed.

Lemma keeps_bind p {A B} (m : M A) (k : A → M B) :
  keeps p m → (∀ a, keeps p (k a)) → keeps p (m ≫= k).
Proof.
  intros Hm Hk. apply (keeps_bind_post p (λ _, True)); auto.
Qed.

Lemma keeps_mkstemp p : keeps p mkstemp.
Proof.
  intros w Hp. unfold mkstemp; cbn. apply lookup_insert_is_Some'. by right.
Qed.

Lemma mkstemp_fresh p w temp :
  is_Some (files w !! p) → (mkstemp w).1 = Ok temp → temp.2 ≠ p.
Proof.
  intros Hp [= <-]; cbn. intros Heq.
  apply (is_fresh (dom (files w))). rewrite Heq. by apply elem_of_dom.
Qed.

Lemma keeps_write p output documents echo :
  keeps p (write output documents echo).
Proof.
  intros w Hp. destruct documents as [|d ds]; [done|].
  rewrite write_run; cbn. apply lookup_insert_is_Some'. by right.
Qed.

Lemma keeps_set_files_insert p output node :
  keeps p (set_files (<[output := node]>)).
Proof. intros w Hp. cbn. apply lookup_insert_is_Some'. by right. Qed.

Lemma files_fixed_os_close fd : files_fixed (os_close fd).
Proof. intros w. unfold os_close. by case_bool_decide. Qed.

Lemma keeps_os_remove p temp : temp ≠ p → keeps p (os_remove temp).
Proof.
  intros Hne w Hp. unfold os_remove.
  destruct (files w !! temp) as [[]|]; cbn; [|done|done].
  by rewrite lookup_delete_ne.
Qed.

Lemma files_fixed_PdfFileReader path : files_fixed (PdfFileReader path).
Proof.
  intros w. unfold PdfFileReader.
  by destruct (files w !! path) as [[[] []|]|].
Qed.

Lemma files_fixed_forM {A B} (f : A → M B) (l : list A) :
  (∀ x, files_fixed (f x)) → files_fixed (forM f l).
Proof.
  intros Hf. induction l as [|x l IH]; cbn [forM]; [by fixed|].
  apply files_fixed_bind; [done|]. intros y.
  apply files_fixed_bind; [done|]. intros ys. by fixed.
Qed.

Lemma keeps_concatenate E p output inputs :
  keeps p (concatenate E output inputs).
Proof.
  unfold concatenate, py_list.
  apply keeps_bind.
  { apply keeps_fixed, files_fixed_forM. apply files_fixed_PdfFileReader. }
  intros readers.
  apply (keeps_bind_post p (λ temp, temp.2 ≠ p));
    [apply keeps_mkstemp|intros; by eapply mkstemp_fresh|].
  intros temp Htemp.
  apply keeps_bind; [apply keeps_fixed, files_fixed_index|]; intros first.
  apply keeps_bind; [apply keeps_fixed, files_fixed_index|]; intros page0.
  apply keeps_bind; [apply keeps_fixed, files_fixed_lift|]; intros document.
  apply keeps_bind; [apply keeps_write|]; intros _.
  apply keeps_bind; [apply keeps_fixed, files_fixed_PdfFileReader|];
    intros filler.
  apply keeps_bind; [apply keeps_fixed, files_fixed_index|]; intros page.
  apply keeps_bind; [apply keeps_set_files_insert|]; intros _.
  apply keeps_bind; [apply keeps_fixed, files_fixed_os_close|]; intros _.
  by apply keeps_os_remove.
Qed.

Ltac keeps_step :=
  first
    [ apply keeps_mkstemp | apply keeps_write | apply keeps_concatenate
    | apply keeps_set_files_insert
    | apply keeps_fixed;
      first [ apply files_fixed_render | apply files_fixed_get
            | apply files_fixed_os_close | apply files_fixed_PdfFileReader
            | by fixed ] ].

Section Staging.

Variable E : Env.

Lemma keeps_or_cancel p document : keeps p (or_cancel document).
Proof. apply keeps_fixed. unfold or_cancel. by fixed. Qed.

Lemma keeps_discard p {A} (x : A) : keeps p (discard x).
Proof. apply keeps_fixed. unfold discard. by fixed. Qed.

Lemma keeps_py_list_snd p (temps : list (nat * string)) :
  keeps p (py_list (py_map (λ f : nat * string, mret f.2) temps)).
Proof.
  apply keeps_fixed. cbn. apply files_fixed_forM. intros x. by fixed.
Qed.

(** Once the first staging file exists, nothing in the rest of
    [side_by_side] removes it, however the run ends. *)
Lemma side_by_side_keeps_first args output queue size document page w :
  HTML_render E None [] [CssPageSize size] = Ok document →
  pages document !! 0%nat = Some page →
  queue ≠ [] →
  is_Some (files (side_by_side E args output queue size w).2
             !! fresh (dom (files w))).
Proof.
  intros Hblank Hpage Hqueue.
  set (temp0 := fresh (dom (files w))).
  set (w1 := mkWorld (<[temp0 := NFile true (RawData [])]> (files w))
                     ({[fresh (open_fds w)]} ∪ open_fds w) (stdin w) (tty w)).
  unfold side_by_side.
  rewrite (bind_ok _ _ w document w)
    by (unfold blank, lift; by rewrite Hblank).
  rewrite (bind_ok _ _ w page w) by by apply index_run.
  rewrite (bind_ok _ _ w
             (py_int (width page / inject_Z (Z.of_nat (List.length queue))))
             w).
  2:{ unfold div_len. destruct queue; [done|]. done. }
  rewrite (bind_ok _ _ w (fresh (open_fds w), temp0) w1) by done.
  match goal with
  | |- is_Some (files (?m ?w).2 !! ?p) =>
      cut (keeps p m);
      [intros Hk; apply Hk; unfold w1; cbn; by rewrite lookup_insert_eq|]
  end.
  apply keeps_bind; [apply keeps_fixed, files_fixed_index|]; intros queued0.
  apply keeps_bind; [keeps_step|]; intros rendered0.
  apply keeps_bind; [apply keeps_or_cancel|]; intros document0.
  apply keeps_bind; [keeps_step|]; intros _.
  apply keeps_bind; [keeps_step|]; intros temp1.
  apply keeps_bind; [apply keeps_fixed, files_fixed_index|]; intros queued1.
  apply keeps_bind; [keeps_step|]; intros rendered1.
  apply keeps_bind; [apply keeps_or_cancel|]; intros document1.
  apply keeps_bind; [keeps_step|]; intros _.
  apply keeps_bind.
  { destruct (List.length queue =? 3)%nat; [|by keeps_step].
    apply keeps_bind; [keeps_step|]; intros temp2.
    apply keeps_bind; [apply keeps_fixed, files_fixed_index|]; intros queued2.
    apply keeps_bind; [keeps_step|]; intros rendered2.
    apply keeps_bind; [apply keeps_or_cancel|]; intros document2.
    apply keeps_bind; [keeps_step|]; intros _. by keeps_step. }
  intros temps.
  apply keeps_bind; [apply keeps_py_list_snd|]; intros inputs.
  apply keeps_bind; [keeps_step|]; intros _.
  apply keeps_bind; [apply keeps_discard|]; intros _.
  apply keeps_bind; [apply keeps_discard|]; intros _.
  apply keeps_bind; [by keeps_step|]; intros _.
  apply keeps_fixed. unfold sys_exit. by fixed.
Qed.

(** C1 (amended): the staging files are not cleaned up on the failure
    path.  The first staging file is new, and whenever the run ends in
    any other way than by exit status 0 (an input that yields no
    document, an exception) it is still on disk at the end. *)
Theorem staging_file_left_on_failure (args : Args) (output : string)
    (queue : list string) (size : Size) (document : Document) (page : WPage)
    (w : World) :
  HTML_render E None [] [CssPageSize size] = Ok document →
  pages document !! 0%nat = Some page →
  queue ≠ [] →
  let temp0 := fresh (dom (files w)) in
  let final := side_by_side E args output queue size w in
  files w !! temp0 = None
  ∧ (final.1 ≠ Raised (SystemExit 0) → is_Some (files final.2 !! temp0)).
Proof.
  intros Hblank Hpage Hqueue temp0 final. split.
  - apply not_elem_of_dom, is_fresh.
  - intros _. by eapply side_by_side_keeps_first.
Qed.

End Staging.

(** * Further properties *)

(** ** Patterns *)

Lemma special_not_alnum c : is_special c = true → is_alnum c = false.
Proof. destruct c as [[] [] [] [] [] [] [] []]; vm_compute; congruence. Qed.

Lemma plain_char c :
  is_special c = false →
  Ascii.eqb c backslash = false ∧ Ascii.eqb c (chr 124) = false
  ∧ Ascii.eqb c (chr 94) = false ∧ Ascii.eqb c (chr 36) = false
  ∧ Ascii.eqb c (chr 46) = false ∧ Ascii.eqb c (chr 42) = false
  ∧ unsupported_meta c = false.
Proof.
  destruct c as [[] [] [] [] [] [] [] []]; vm_compute; intros; try congruence;
    repeat split.
Qed.

Lemma re_escape_head i d rest :
  re_escape i = String d rest → Ascii.eqb d (chr 42) = false.
Proof.
  destruct i as [|c i]; cbn [re_escape]; [done|].
  destruct (is_special c) eqn:Hc; intros H; injection H as <- _; [done|].
  by apply plain_char in Hc as (_ & _ & _ & _ & _ & ? & _).
Qed.

Lemma replace_escaped_star_cons c s :
  (∀ d rest, s = String d rest → Ascii.eqb d (chr 42) = false) →
  replace_escaped_star (String c s) = String c (replace_escaped_star s).
Proof.
  intros Hs. destruct s as [|d rest]; [done|].
  change (replace_escaped_star (String c (String d rest)))
    with (if Ascii.eqb c backslash && Ascii.eqb d (chr 42)
          then String (chr 46) (String (chr 42) (replace_escaped_star rest))
          else String c (replace_escaped_star (String d rest))).
  by rewrite (Hs d rest eq_refl), andb_false_r.
Qed.

(** [re.escape] followed by the replacement of escaped stars. *)
Lemma translate_tokens i :
  replace_escaped_star (re_escape i) = pattern_tokens i.
Proof.
  induction i as [|c i IH]; [done|].
  cbn [re_escape pattern_tokens].
  destruct (Ascii.eqb c (chr 42)) eqn:Hstar.
  - apply Ascii.eqb_eq in Hstar as ->.
    change (is_special (chr 42)) with true. cbv iota.
    change (replace_escaped_star
              (String backslash (String (chr 42) (re_escape i))))
      with (String (chr 46)
              (String (chr 42) (replace_escaped_star (re_escape i)))).
    by rewrite IH.
  - destruct (is_special c) eqn:Hc.
    + rewrite replace_escaped_star_cons.
      2:{ intros d rest [= <- _]. exact Hstar. }
      rewrite replace_escaped_star_cons by apply re_escape_head.
      by rewrite IH.
    + rewrite replace_escaped_star_cons by apply re_escape_head.
      by rewrite IH.
Qed.

Lemma string_app_nil_r (a : string) : a +:+ EmptyString = a.
Proof.
  induction a as [|c a IH]; [done|].
  change (String c (a +:+ EmptyString) = String c a). by rewrite IH.
Qed.

Lemma re_parse_plain c s cur done :
  is_special c = false →
  re_parse (String c s) cur done = re_parse s (AChar (CLit c) :: cur) done.
Proof.
  destruct c as [[] [] [] [] [] [] [] []]; intros H;
    first [discriminate H|reflexivity].
Qed.

Lemma re_parse_tokens i rest cur done :
  re_parse (pattern_tokens i +:+ rest) cur done
  = re_parse rest (rev (pattern_atoms i) ++ cur) done.
Proof.
  revert cur; induction i as [|c i IH]; intros cur; [done|].
  cbn [pattern_tokens pattern_atoms].
  destruct (Ascii.eqb c (chr 42)) eqn:Hstar.
  - change (re_parse (String (chr 46) (String (chr 42) (pattern_tokens i))
                      +:+ rest) cur done)
      with (re_parse (pattern_tokens i +:+ rest) (AStar CAny :: cur) done).
    rewrite IH. cbn [rev]. by rewrite <- app_assoc.
  - destruct (is_special c) eqn:Hc.
    + change (re_parse (String backslash (String c (pattern_tokens i))
                        +:+ rest) cur done)
        with (if is_alnum c then None
              else re_parse (pattern_tokens i +:+ rest)
                            (AChar (CLit c) :: cur) done).
      rewrite (special_not_alnum c Hc), IH. cbn [rev].
      by rewrite <- app_assoc.
    + change (String c (pattern_tokens i) +:+ rest)
        with (String c (pattern_tokens i +:+ rest)).
      rewrite (re_parse_plain c _ _ _ Hc), IH. cbn [rev].
      by rewrite <- app_assoc.
Qed.

Lemma string_app_assoc (a b c : string) : (a +:+ b) +:+ c = a +:+ b +:+ c.
Proof.
  induction a as [|x a IH]; [done|].
  change (String x ((a +:+ b) +:+ c) = String x (a +:+ b +:+ c)).
  by rewrite IH.
Qed.

Lemma parse_joined p ps cur done :
  re_parse (str_join "|" (pattern_tokens <$> p :: ps) +:+ "$") cur done
  = Some (rev done
          ++ add_eol (rev cur ++ pattern_atoms p) (pattern_atoms <$> ps)).
Proof.
  revert p cur done; induction ps as [|q ps IH]; intros p cur done.
  - cbn [fmap list_fmap str_join]. rewrite re_parse_tokens.
    cbn. by rewrite rev_app_distr, rev_involutive.
  - change (str_join "|" (pattern_tokens <$> p :: q :: ps))
      with (pattern_tokens p +:+ "|"
            +:+ str_join "|" (pattern_tokens <$> q :: ps)).
    rewrite !string_app_assoc. rewrite re_parse_tokens.
    change (re_parse ("|" +:+ ?s) ?c ?d) with (re_parse s [] (rev c :: d)).
    rewrite IH. cbn. rewrite rev_app_distr, rev_involutive.
    by rewrite <- app_assoc.
Qed.

Lemma translate_patterns_tokens ps :
  translate_patterns ps = pattern_tokens <$> ps.
Proof.
  unfold translate_patterns. apply list_fmap_ext. intros _ p _.
  apply translate_tokens.
Qed.

(** The expression built from translated patterns always compiles. *)
Lemma compile_patterns ps :
  re_compile (anchored (translate_patterns ps))
  = Some (anchor_ends (pattern_atoms <$> ps)).
Proof.
  rewrite translate_patterns_tokens. unfold re_compile, anchored.
  destruct ps as [|p ps]; [reflexivity|].
  change (re_parse ("^" +:+ ?s) [] []) with (re_parse s [ABol] []).
  by rewrite parse_joined.
Qed.

Lemma re_search_patterns ps candidate :
  re_search (anchored (translate_patterns ps)) candidate
  = Ok (search_from (anchor_ends (pattern_atoms <$> ps)) true candidate).
Proof. unfold re_search. by rewrite compile_patterns. Qed.

Lemma translate_patterns_given ps :
  bool_decide (translate_patterns ps ≠ []) = bool_decide (ps ≠ []).
Proof. by destruct ps. Qed.

(** X3: for every list of include and of exclude patterns the filters of
    lines 132-145 finish without an error and without touching the
    world: the expression built from escaped patterns always compiles.
    The queue gains, in the order of the candidates, those that the
    search for the include patterns finds (all of them when there is
    none) and the search for the exclude patterns does not; [^] is part
    of the first alternative only and [$] of the last. *)
Theorem filter_candidates_closed include exclude candidates queue w :
  filter_candidates (translate_patterns include) (translate_patterns exclude)
                    candidates queue w
  = (Ok (queue ++ List.filter (keeps_candidate include exclude) candidates),
     w).
Proof.
  revert queue; induction candidates as [|candidate candidates IH];
    intros queue.
  - cbn. by rewrite app_nil_r.
  - cbn [filter_candidates List.filter]. unfold keeps_candidate at 1.
    rewrite !re_search_patterns, !translate_patterns_given.
    unfold mbind, M_bind, bind, lift, mret, M_ret, ret.
    destruct (bool_decide (include ≠ [])), (bool_decide (exclude ≠ []));
      repeat (destruct (search_from _ true candidate)); cbn;
      rewrite IH; by rewrite <- ?app_assoc.
Qed.

Lemma match_seq_star cls rest bol s :
  match_seq (AStar cls :: rest) bol s
  = match_seq rest bol s
    || match s with
       | String c s' =>
           class_matches cls c && match_seq (AStar cls :: rest) false s'
       | EmptyString => false
       end.
Proof. by destruct s. Qed.

Lemma wildcard_star p s :
  wildcard (String (chr 42) p) s
  = wildcard p s
    || match s with
       | String _ s' => wildcard (String (chr 42) p) s'
       | EmptyString => false
       end.
Proof. by destruct s. Qed.

Lemma match_pattern_atoms p bol s :
  has_newline s = false →
  match_seq (pattern_atoms p ++ [AEol]) bol s = wildcard p s.
Proof.
  revert bol s; induction p as [|c p IH]; intros bol s Hs.
  - destruct s as [|d s]; [done|]. cbn in Hs.
    apply orb_false_iff in Hs as [Hd _]. cbn.
    destruct s; [|done]. by rewrite Hd.
  - cbn [pattern_atoms]. destruct (Ascii.eqb c (chr 42)) eqn:Hc.
    + apply Ascii.eqb_eq in Hc as ->.
      revert bol; induction s as [|d s IHs]; intros bol.
      * rewrite wildcard_star. cbn [app]. rewrite match_seq_star.
        by rewrite IH, !orb_false_r.
      * cbn in Hs. apply orb_false_iff in Hs as [Hd Hs'].
        rewrite wildcard_star. cbn [app]. rewrite match_seq_star.
        rewrite IH by (cbn; by rewrite Hd, Hs').
        cbn [class_matches]. rewrite Hd. cbn [negb andb].
        by rewrite (IHs Hs').
    + cbn [app match_seq wildcard]. rewrite Hc.
      destruct s as [|d s]; [done|].
      cbn in Hs. apply orb_false_iff in Hs as [_ Hs'].
      cbn [class_matches]. by rewrite IH.
Qed.

Lemma search_from_bol a s :
  search_from [ABol :: a] false s = false.
Proof. induction s as [|c s IH]; [done|]. cbn. by rewrite IH. Qed.

Lemma search_single_anchored a s :
  search_from [ABol :: a] true s = match_seq a true s.
Proof.
  destruct s as [|c s].
  - cbn. by rewrite !orb_false_r.
  - change (search_from [ABol :: a] true (String c s))
      with (match_seq a true (String c s) || false
            || search_from [ABol :: a] false s).
    by rewrite search_from_bol, !orb_false_r.
Qed.

Lemma wildcard_literal p s :
  has_star p = false → wildcard p s = bool_decide (s = p).
Proof.
  revert s; induction p as [|c p IH]; intros s Hp.
  - destruct s; [done|]. by rewrite bool_decide_false.
  - cbn in Hp. apply orb_false_iff in Hp as [Hc Hp].
    cbn [wildcard]. rewrite Hc. destruct s as [|d s].
    + by rewrite bool_decide_false.
    + rewrite (IH s Hp). destruct (Ascii.eqb_spec c d) as [->|Hne].
      * cbn [andb]. apply bool_decide_ext. split; [by intros ->|].
        by intros [= ->].
      * cbn [andb]. symmetry. apply bool_decide_false. by intros [= <- _].
Qed.

(** X4: against one pattern alone, and for a path without a line feed, the
    search is wildcard matching of the whole path: a star stands for any
    run of characters and every other character, the ones special to
    regular expressions included, for itself.  A pattern without a star
    matches its own text and nothing else. *)
Theorem single_pattern_wildcard p candidate :
  has_newline candidate = false →
  re_search (anchored (translate_patterns [p])) candidate
  = Ok (wildcard p candidate)
  ∧ (has_star p = false →
     wildcard p candidate = bool_decide (candidate = p)).
Proof.
  intros Hs. split; [|apply wildcard_literal].
  rewrite re_search_patterns. f_equal.
  change (anchor_ends (pattern_atoms <$> [p]))
    with [ABol :: (pattern_atoms p ++ [AEol])].
  rewrite search_single_anchored. by apply match_pattern_atoms.
Qed.

(** ** The stages of [main] *)

Lemma glob_patterns_world E patterns paths w :
  (glob_patterns E patterns paths w).2 = w.
Proof.
  revert paths; induction patterns as [|pattern patterns IH]; intros paths;
    [done|].
  cbn [glob_patterns]. munfold.
  destruct (String.eqb pattern EmptyString); [apply IH|].
  destruct (braceexpand E pattern); [apply IH|done].
Qed.

(** X1: empty patterns are ignored by the expansion of lines 108-115: the
    result, the error if there is one, and the world are those of the
    same list without its empty entries. *)
Theorem empty_patterns_ignored (E : Env) (patterns paths : list string)
    (w : World) :
  glob_patterns E patterns paths w
  = glob_patterns E (List.filter (λ p, negb (String.eqb p EmptyString))
                                 patterns) paths w.
Proof.
  revert paths; induction patterns as [|pattern patterns IH]; intros paths;
    [done|].
  cbn [List.filter]. destruct (String.eqb_spec pattern EmptyString) as [->|Hne].
  - cbn [negb]. rewrite <- IH. reflexivity.
  - cbn [negb glob_patterns]. munfold.
    destruct (String.eqb pattern EmptyString); [apply IH|].
    destruct (braceexpand E pattern); [apply IH|done].
Qed.


Lemma find_candidates_unrecognized (E : Env) (before : list string)
    (path : string) (after candidates : list string) (w : World) :
  Forall (λ p, recognized w p = true) before →
  recognized w path = false →
  find_candidates E (before ++ path :: after) candidates w
  = (Raised (RuntimeError ("Could not recognize " +:+ path +:+ ".")), w).
Proof.
  intros Hbefore Hpath. revert candidates.
  induction Hbefore as [|p before Hp _ IH]; intros candidates.
  - cbn [app find_candidates]. munfold. unfold recognized in Hpath.
    apply orb_false_iff in Hpath as [Hfu Hdir]. by rewrite Hfu, Hdir.
  - cbn [app find_candidates]. munfold. unfold recognized in Hp.
    destruct (os_path_isfile w p || is_url p); [apply IH|].
    cbn in Hp. rewrite Hp. apply IH.
Qed.

(** X2: lines 117-130 in closed form.  When every path is a file, a URL or a
    directory, the candidates are extended, in the order of the paths,
    by the path itself for a file or a URL and by the natural-sorted
    files below it for a directory.  Otherwise the first path that is
    none of the three raises "Could not recognize"; the world is
    untouched either way. *)
Theorem find_candidates_result (E : Env) (paths candidates : list string)
    (w : World) :
  find_candidates E paths candidates w
  = match List.find (λ path, negb (recognized w path)) paths with
    | Some path =>
        (Raised (RuntimeError ("Could not recognize " +:+ path +:+ ".")), w)
    | None => (Ok (candidates ++ concat (path_entries E w <$> paths)), w)
    end.
Proof.
  revert candidates; induction paths as [|path paths IH]; intros candidates.
  - cbn. by rewrite app_nil_r.
  - cbn [find_candidates List.find fmap list_fmap concat].
    unfold recognized, path_entries at 1. munfold.
    destruct (os_path_isfile w path || is_url path) eqn:Hfile; cbn [orb negb].
    + rewrite IH. destruct (List.find _ paths); [done|].
      by rewrite <- app_assoc.
    + destruct (os_path_isdir w path) eqn:Hdir; cbn [negb]; [|done].
      rewrite IH. destruct (List.find _ paths); [done|].
      by rewrite <- app_assoc.
Qed.



(** X5: the check of lines 147-161 passes exactly when a side-by-side run has
    two or three queued inputs and a browser run has one; it leaves the
    world alone; with both [-y] and [-b] it never passes. *)
Theorem check_counts_passes (args : Args) (queue : list string) (w : World) :
  ((check_counts args queue w).1 = Ok tt
   ↔ (arg_side_by_side args = true →
      (2 ≤ List.length queue ∧ List.length queue ≤ 3)%nat)
     ∧ (arg_browser args = true → List.length queue = 1%nat))
  ∧ (check_counts args queue w).2 = w
  ∧ (arg_side_by_side args = true → arg_browser args = true →
     (check_counts args queue w).1 ≠ Ok tt).
Proof.
  assert (Hiff : (check_counts args queue w).1 = Ok tt
   ↔ (arg_side_by_side args = true →
      (2 ≤ List.length queue ∧ List.length queue ≤ 3)%nat)
     ∧ (arg_browser args = true → List.length queue = 1%nat)).
  { unfold check_counts. munfold.
    destruct (arg_side_by_side args), (arg_browser args);
      destruct (Nat.ltb_spec (List.length queue) 2);
      destruct (Nat.ltb_spec 3 (List.length queue));
      destruct (Nat.eqb_spec (List.length queue) 1); cbn;
      split; try done; try (intros [H1 H2]; try specialize (H1 eq_refl);
                            try specialize (H2 eq_refl); lia);
      try (intros _; split; intros; try done; lia). }
  split; [exact Hiff|]. split.
  - unfold check_counts. munfold.
    destruct (arg_side_by_side args), (arg_browser args);
      destruct (List.length queue <? 2)%nat;
      destruct (3 <? List.length queue)%nat;
      destruct (List.length queue =? 1)%nat; reflexivity.
  - intros Hs Hb H. apply Hiff in H as [H1 H2].
    specialize (H1 Hs). specialize (H2 Hb). lia.
Qed.


Lemma overwrite_loop_decides (output : string) (junk : list string)
    (s : string) (rest : list string) (w : World) :
  Forall undecided junk →
  is_yes s || is_no s = true →
  let lines := junk ++ s :: rest in
  let asked := replicate (S (List.length junk))
                         (Prompted (overwrite_prompt output)) in
  overwrite_loop output (List.length lines)
    (mkWorld (files w) (open_fds w) lines (tty w))
  = if is_yes s
    then (Ok tt, mkWorld (files w) (open_fds w) rest (tty w ++ asked))
    else (Raised (SystemExit 0),
          mkWorld (files w) (open_fds w) rest
                  (tty w ++ asked
                   ++ [printed "Rendering cancelled." (Some "red") nl])).
Proof.
  intros Hjunk Hs lines asked. subst lines asked.
  destruct w as [fs fds stdin0 events]; cbn [files open_fds tty].
  clear stdin0. revert events.
  induction Hjunk as [|j junk [Hy Hn] _ IH]; intros events.
  - cbn [app List.length replicate overwrite_loop].
    rewrite (bind_ok _ _ _ s
               (mkWorld fs fds rest
                        (events ++ [Prompted (overwrite_prompt output)])))
      by done.
    destruct (is_yes s); [done|]. cbn in Hs. rewrite Hs.
    unfold cancel, cprint, sys_exit, log, logged. munfold. cbn.
    by rewrite <- app_assoc.
  - cbn [app List.length overwrite_loop].
    rewrite (bind_ok _ _ _ j
               (mkWorld fs fds (junk ++ s :: rest)
                        (events ++ [Prompted (overwrite_prompt output)])))
      by done.
    rewrite Hy, Hn, IH. cbn [replicate].
    destruct (is_yes s); by rewrite <- !app_assoc.
Qed.

Lemma overwrite_loop_eof (output : string) (junk : list string)
    (w : World) :
  Forall undecided junk →
  overwrite_loop output (List.length junk)
    (mkWorld (files w) (open_fds w) junk (tty w))
  = (Raised (PyError "EOFError"),
     mkWorld (files w) (open_fds w) []
             (tty w ++ replicate (S (List.length junk))
                                 (Prompted (overwrite_prompt output)))).
Proof.
  intros Hjunk.
  destruct w as [fs fds stdin0 events]; cbn [files open_fds tty].
  clear stdin0. revert events.
  induction Hjunk as [|j junk [Hy Hn] _ IH]; intros events.
  - reflexivity.
  - cbn [List.length overwrite_loop].
    rewrite (bind_ok _ _ _ j
               (mkWorld fs fds junk
                        (events ++ [Prompted (overwrite_prompt output)])))
      by done.
    rewrite Hy, Hn, IH. cbn [replicate]. by rewrite <- !app_assoc.
Qed.

(** X6: without [--force], with positional inputs and an existing output,
    the prompt of lines 168-173 is repeated for every answer that is
    neither a yes nor a no.  The first answer that is one ends it: a yes
    lets the run go on, a no cancels it with status 0 after "Rendering
    cancelled."; the lines after that answer stay on standard input and
    the files are untouched. *)
Theorem confirm_overwrite_answers (args : Args) (output : string)
    (junk : list string) (s : string) (rest : list string) (w : World) :
  arg_force args = false →
  arg_INPUT args ≠ [] →
  is_Some (files w !! output) →
  Forall undecided junk →
  is_yes s || is_no s = true →
  let asked := replicate (S (List.length junk))
                         (Prompted (overwrite_prompt output)) in
  confirm_overwrite args output
    (mkWorld (files w) (open_fds w) (junk ++ s :: rest) (tty w))
  = if is_yes s
    then (Ok tt, mkWorld (files w) (open_fds w) rest (tty w ++ asked))
    else (Raised (SystemExit 0),
          mkWorld (files w) (open_fds w) rest
                  (tty w ++ asked
                   ++ [printed "Rendering cancelled." (Some "red") nl])).
Proof.
  intros Hforce Hinput Hexists Hjunk Hs asked.
  unfold confirm_overwrite, os_path_exists. munfold. cbn [files stdin].
  rewrite Hforce, (bool_decide_true _ Hexists),
    (bool_decide_false _ Hinput). cbn [negb andb].
  by apply overwrite_loop_decides.
Qed.

(** X7: in the same situation (no [--force], positional inputs, an existing
    output), when standard input ends before a yes or a no was given,
    the run ends with [EOFError], after one prompt per line read and
    one more; the files are untouched. *)
Theorem confirm_overwrite_eof (args : Args) (output : string)
    (junk : list string) (w : World) :
  arg_force args = false →
  arg_INPUT args ≠ [] →
  is_Some (files w !! output) →
  Forall undecided junk →
  confirm_overwrite args output
    (mkWorld (files w) (open_fds w) junk (tty w))
  = (Raised (PyError "EOFError"),
     mkWorld (files w) (open_fds w) []
             (tty w ++ replicate (S (List.length junk))
                                 (Prompted (overwrite_prompt output)))).
Proof.
  intros Hforce Hinput Hexists Hjunk.
  unfold confirm_overwrite, os_path_exists. munfold. cbn [files stdin].
  rewrite Hforce, (bool_decide_true _ Hexists),
    (bool_decide_false _ Hinput). cbn [negb andb].
  by apply overwrite_loop_eof.
Qed.



Lemma makedirs_loop_step dirname rounds w :
  (∃ e, (makedirs_loop dirname rounds w).1 = Raised e ∧ loop_exit dirname e)
  ∨ ∃ rounds' w', rounds = S rounds'
      ∧ makedirs_loop dirname rounds w = makedirs_loop dirname rounds' w'.
Proof.
  destruct rounds as [|rounds']; cbn [makedirs_loop];
    unfold input, os_makedirs, try_except, os_path_exists; munfold;
    destruct (stdin w) as [|s lines]; cbn;
    try (left; exists (PyError "EOFError"); split; [done|];
         right; by right);
    (destruct (is_no (strip s)); cbn;
     [left; exists (SystemExit 0); split; [done|]; by left|]);
    (destruct (is_yes (strip s)); cbn; [case_bool_decide; cbn|]);
    first [ left; eexists; split; [reflexivity|]; right; by left
          | left; eexists; split; [reflexivity|]; right; by right
          | right; eexists _, _; split; reflexivity ].
Qed.

(** The loop of lines 178-186 has no [break]: it is never left
    normally. *)
Lemma makedirs_loop_never_returns dirname rounds w :
  ∃ e, (makedirs_loop dirname rounds w).1 = Raised e ∧ loop_exit dirname e.
Proof.
  revert w; induction rounds as [|rounds IH]; intros w.
  - by destruct (makedirs_loop_step dirname 0 w) as [H|(? & ? & ? & _)].
  - destruct (makedirs_loop_step dirname (S rounds) w)
      as [H|(rounds' & w' & Hrounds & Hloop)]; [done|].
    injection Hrounds as <-. rewrite Hloop. apply IH.
Qed.

(** X8: when the directory of the output exists nothing is asked and nothing
    changes.  When it does not, lines 177-186 never let the run go on,
    not even after a yes that creates the directory: the loop is left
    only by a no (status 0), by a failure of [os.makedirs] ("Could not
    create") or by the end of standard input ([EOFError]). *)
Theorem confirm_directory_missing (E : Env) (output : string) (w : World) :
  let dirname := os_path_dirname (os_path_realpath E output) in
  if os_path_isdir w dirname
  then confirm_directory E output w = (Ok tt, w)
  else ∃ e, (confirm_directory E output w).1 = Raised e
            ∧ loop_exit dirname e.
Proof.
  intros dirname. unfold confirm_directory. fold dirname. munfold.
  destruct (os_path_isdir w dirname); cbn; [done|].
  apply makedirs_loop_never_returns.
Qed.






Lemma py_int_floor (x : Q) : (0 <= x)%Q → py_int x = Qfloor x.
Proof.
  destruct x as [n d]. unfold Qle, py_int, Qfloor; cbn. intros H.
  apply Z.quot_div_nonneg; lia.
Qed.

(** X10: the column width of line 238, [int(width / len(queue))] for a page
    width that is not negative: with [n] inputs it is the largest whole
    number of pixels [c] with [c * n <= width], so the columns never
    exceed the page and less than [n] pixels are left over.  With no
    input the division fails with [ZeroDivisionError]. *)
Theorem column_width_bounds (x : Q) (n : nat) (w : World) :
  (0 <= x)%Q →
  match n with
  | O => (py_int <$> div_len x n) w = (Raised (PyError "ZeroDivisionError"), w)
  | S _ =>
      ∃ c : Z,
        (py_int <$> div_len x n) w = (Ok c, w)
        ∧ (0 <= c)%Z
        ∧ (inject_Z c * inject_Z (Z.of_nat n) <= x)%Q
        ∧ (x < inject_Z (c + 1) * inject_Z (Z.of_nat n))%Q
  end.
Proof.
  intros Hx. destruct n as [|n]; [done|].
  set (m := inject_Z (Z.of_nat (S n))).
  assert (Hm : (0 < m)%Q).
  { unfold m. change 0%Q with (inject_Z 0). rewrite <- Zlt_Qlt. lia. }
  assert (Hq : (0 <= x / m)%Q).
  { apply Qle_shift_div_l; [done|]. lra. }
  exists (py_int (x / m)). split; [done|].
  rewrite (py_int_floor _ Hq).
  pose proof (Qfloor_le (x / m)) as Hlo.
  pose proof (Qlt_floor (x / m)) as Hhi.
  assert (Heq : (x / m * m == x)%Q).
  { rewrite Qmult_comm. apply Qmult_div_r. intros H0. rewrite H0 in Hm.
    by apply Qlt_irrefl in Hm. }
  split; [|split].
  - change 0%Z with (Qfloor 0). by apply Qfloor_resp_le.
  - rewrite <- Heq at 2. apply Qmult_le_compat_r; [exact Hlo|].
    by apply Qlt_le_weak.
  - rewrite <- Heq at 1. by apply Qmult_lt_compat_r.
Qed.

(** ** [render] and [get] *)

Lemma logged_nil w : logged w [] = w.
Proof. destruct w; unfold logged; cbn. by rewrite app_nil_r. Qed.

Lemma tty_only_ret {A} (a : A) : tty_only (mret a).
Proof. intros w. exists []. by rewrite logged_nil. Qed.

Lemma tty_only_raise {A} e : tty_only (@raise A e).
Proof. intros w. exists []. by rewrite logged_nil. Qed.

Lemma tty_only_lift {A} (r : Res A) : tty_only (lift r).
Proof. intros w. exists []. by rewrite logged_nil. Qed.

Lemma tty_only_cprint msg color ending : tty_only (cprint msg color ending).
Proof. intros w. by eexists. Qed.

Lemma tty_only_bind {A B} (m : M A) (k : A → M B) :
  tty_only m → (∀ a, tty_only (k a)) → tty_only (m ≫= k).
Proof.
  intros Hm Hk w. unfold mbind, M_bind, bind.
  destruct (Hm w) as [ev1 H1]. destruct (m w) as [[a|e] w1]; cbn in *.
  - destruct (Hk a w1) as [ev2 H2]. exists (ev1 ++ ev2).
    by rewrite H2, H1, logged_logged.
  - by exists ev1.
Qed.

Lemma tty_only_try_except {A} (m : M A) (h : Exn → M A) :
  tty_only m → (∀ e, tty_only (h e)) → tty_only (try_except m h).
Proof.
  intros Hm Hh w. unfold try_except.
  destruct (Hm w) as [ev1 H1].
  destruct (m w) as [[a|[msg|c|ty]] w1]; cbn in *; try by exists ev1.
  - destruct (Hh (RuntimeError msg) w1) as [ev2 H2]. exists (ev1 ++ ev2).
    by rewrite H2, H1, logged_logged.
  - destruct (Hh (PyError ty) w1) as [ev2 H2]. exists (ev1 ++ ev2).
    by rewrite H2, H1, logged_logged.
Qed.

Lemma tty_only_index {A} (l : list A) i : tty_only (index l i).
Proof.
  intros w. exists []. rewrite logged_nil. unfold index.
  by destruct (l !! i).
Qed.

Lemma tty_only_read_bytes E file : tty_only (read_bytes E file).
Proof.
  intros w. exists []. rewrite logged_nil. unfold read_bytes.
  by destruct (files w !! file) as [[[] ?|]|].
Qed.

Ltac tty_steps :=
  repeat first
    [ apply tty_only_ret | apply tty_only_raise | apply tty_only_lift
    | apply tty_only_cprint | apply tty_only_index
    | apply tty_only_read_bytes
    | apply tty_only_bind; [|intros ?]
    | apply tty_only_try_except; [|intros ?]
    | match goal with
      | |- tty_only (if ?b then _ else _) => destruct b
      | |- tty_only (match ?x with _ => _ end) => destruct x
      end ].

Lemma tty_only_get E file : tty_only (get E file).
Proof.
  unfold get. destruct (is_url file); [|by tty_steps].
  apply tty_only_bind; [by tty_steps|]. intros req. by tty_steps.
Qed.

Lemma tty_only_render E filename size browser color fontSize margin path
    relative :
  tty_only (render E filename size browser color fontSize margin path relative).
Proof.
  unfold render, set_bookmark.
  apply tty_only_bind; [by tty_steps|]. intros _.
  destruct browser.
  - apply tty_only_bind; [|intros ?; by tty_steps].
    apply tty_only_try_except; [|intros ?; by tty_steps].
    apply tty_only_bind; [apply tty_only_get|]. intros page.
    by tty_steps.
  - apply tty_only_bind; [apply tty_only_get|]. intros code.
    destruct (has_nul code); [by tty_steps|].
    apply tty_only_bind; [by tty_steps|]. intros document.
    apply tty_only_bind; [|intros ?; by tty_steps].
    destruct (pages document); by tty_steps.
Qed.

(** X13: rendering the queue (lines 282-287), whatever the inputs and however
    it ends, only writes to the terminal: the files, the open
    descriptors and standard input are as before. *)
Theorem rendering_touches_only_terminal (E : Env) (args : Args)
    (size : Size) (queue : list string) (documents : list Document)
    (w : World) :
  ∃ events,
    (render_queue E args size queue documents w).2 = logged w events.
Proof.
  revert documents w. induction queue as [|queued queue IH];
    intros documents w.
  - exists []. by rewrite logged_nil.
  - cbn [render_queue]. unfold mbind, M_bind, bind.
    destruct (tty_only_render E queued size false
                (negb (arg_no_color args)) "10pt" ".5in"
                (negb (arg_no_path args)) true w) as [ev1 H1].
    destruct (render _ _ _ _ _ _ _ _ _ w) as [[[d|]|e] w1]; cbn in H1 |- *.
    + destruct (IH (documents ++ [d]) w1) as [ev2 H2].
      exists (ev1 ++ ev2). by rewrite H2, H1, logged_logged.
    + destruct (IH documents w1) as [ev2 H2].
      exists (ev1 ++ ev2). by rewrite H2, H1, logged_logged.
    + by exists ev1.
Qed.

(** X14: with [browser=True], [render] never returns a document.  When the
    page was fetched and rendered, line 504 reads [title], which only
    the highlighting branch assigns, and [UnboundLocalError] is raised;
    otherwise the error is "Could not GET" or "Could not read" the
    file, or the exit a library call asked for. *)
Theorem render_browser_never_returns (E : Env) (filename : string)
    (size : Size) (color : bool) (fontSize margin : string)
    (path relative : bool) (w : World) :
  ∃ e, (render E filename size true color fontSize margin path relative w).1
       = Raised e
       ∧ (e = PyError "UnboundLocalError"
          ∨ e = RuntimeError ("Could not GET " +:+ filename +:+ ".")
          ∨ e = RuntimeError ("Could not read " +:+ filename +:+ ".")
          ∨ ∃ code, e = SystemExit code).
Proof.
  unfold render.
  rewrite (bind_ok _ _ w tt
             (logged w [printed ("Rendering " +:+ filename +:+ "...") None
                                EmptyString])) by done.
  cbv iota.
  match goal with
  | |- context [try_except ?body ?handler] =>
      set (m := try_except body handler);
      assert (Hm : ∀ w0 e w1, m w0 = (Raised e, w1) →
                e = RuntimeError ("Could not GET " +:+ filename +:+ ".")
                ∨ e = RuntimeError ("Could not read " +:+ filename +:+ ".")
                ∨ ∃ code, e = SystemExit code)
  end.
  { intros w0 e w1. unfold m, try_except.
    match goal with
    | |- context [match ?b w0 with _ => _ end] =>
        destruct (b w0) as [[d|[msg|code|ty]] w2]
    end.
    - done.
    - munfold. cbn. intros [= <- _]. right; by left.
    - intros [= <- _]. right; right; by eexists.
    - munfold. cbn. repeat case_match; intros [= <- _];
        first [by left|right; by left]. }
  unfold mbind, M_bind, bind.
  destruct (m _) as [[d|e] w1] eqn:Hrun.
  - eexists; split; [done|]. by left.
  - exists e. split; [done|]. right. by eapply Hm.
Qed.

(** The decoded text holds a NUL exactly when the bytes hold a zero:
    dropping malformed bytes neither makes nor loses one. *)
Lemma has_nul_decode (bs : bytes) :
  has_nul (decode_utf8_ignore bs) = has_zero_byte bs.
Proof.
  assert (H : ∀ n (bs : bytes), (List.length bs ≤ n)%nat →
                has_nul (decode_utf8_ignore bs) = has_zero_byte bs).
  { clear bs. induction n as [|n IH]; intros bs Hlen.
    - destruct bs; [done|cbn in Hlen; lia].
    - destruct bs as [|b0 r0]; [done|].
      cbn in Hlen. cbn [decode_utf8_ignore has_zero_byte existsb].
      fold (has_zero_byte r0).
      assert (H0 : has_nul (decode_utf8_ignore r0) = has_zero_byte r0)
        by (apply IH; lia).
      destruct (Byte.to_N b0 <? 128)%N eqn:Hascii.
      { cbn [has_nul existsb]. fold (has_nul (decode_utf8_ignore r0)).
        rewrite H0. by rewrite N.eqb_sym. }
      apply N.ltb_ge in Hascii.
      assert (Hb0 : (Byte.to_N b0 =? 0)%N = false)
        by (apply N.eqb_neq; lia).
      rewrite Hb0. cbn [orb].
      destruct r0 as [|b1 r1]; [done|].
      cbn [has_zero_byte existsb] in *. fold (has_zero_byte r1) in *.
      assert (H1 : has_nul (decode_utf8_ignore r1) = has_zero_byte r1)
        by (apply IH; cbn in Hlen |- *; lia).
      destruct (in_range 194 223 (Byte.to_N b0)) eqn:Hlead2.
      { destruct (in_range 128 191 (Byte.to_N b1)) eqn:Hc1; [|done].
        apply in_range_spec in Hlead2, Hc1.
        cbn [has_nul existsb]. fold (has_nul (decode_utf8_ignore r1)).
        rewrite H1. unfold cont.
        rewrite (proj2 (N.eqb_neq 0 _)) by lia.
        by rewrite (proj2 (N.eqb_neq (Byte.to_N b1) 0)) by lia. }
      destruct (in_range 224 239 (Byte.to_N b0)) eqn:Hlead3.
      { destruct (in_range _ _ (Byte.to_N b1)) eqn:Hc1; [|done].
        assert (Hb1 : (Byte.to_N b1 =? 0)%N = false).
        { apply N.eqb_neq. apply in_range_spec in Hc1.
          destruct (Byte.to_N b0 =? 224)%N; lia. }
        rewrite Hb1. cbn [orb].
        destruct r1 as [|b2 r2]; [done|].
        cbn [has_zero_byte existsb] in *. fold (has_zero_byte r2) in *.
        destruct (in_range 128 191 (Byte.to_N b2)) eqn:Hc2.
        - apply in_range_spec in Hlead3, Hc2.
          cbn [has_nul existsb]. fold (has_nul (decode_utf8_ignore r2)).
          rewrite (IH r2) by (cbn in Hlen |- *; lia). unfold cont.
          rewrite (proj2 (N.eqb_neq 0 _)).
          + by rewrite (proj2 (N.eqb_neq (Byte.to_N b2) 0)) by lia.
          + apply in_range_spec in Hc1.
            destruct (N.eqb_spec (Byte.to_N b0) 224); lia.
        - by rewrite H0, Hb1. }
      destruct (in_range 240 244 (Byte.to_N b0)) eqn:Hlead4; [|done].
      destruct (in_range _ _ (Byte.to_N b1)) eqn:Hc1; [|done].
      assert (Hb1 : (Byte.to_N b1 =? 0)%N = false).
      { apply N.eqb_neq. apply in_range_spec in Hc1.
        destruct (Byte.to_N b0 =? 240)%N; lia. }
      rewrite Hb1. cbn [orb].
      destruct r1 as [|b2 r2]; [done|].
      cbn [has_zero_byte existsb] in *. fold (has_zero_byte r2) in *.
      destruct (in_range 128 191 (Byte.to_N b2)) eqn:Hc2;
        [|by rewrite H0, Hb1].
      assert (Hb2 : (Byte.to_N b2 =? 0)%N = false)
        by (apply N.eqb_neq; apply in_range_spec in Hc2; lia).
      rewrite Hb2. cbn [orb].
      destruct r2 as [|b3 r3]; [done|].
      cbn [has_zero_byte existsb] in *. fold (has_zero_byte r3) in *.
      destruct (in_range 128 191 (Byte.to_N b3)) eqn:Hc3;
        [|by rewrite H0, Hb1, Hb2].
      apply in_range_spec in Hlead4, Hc2, Hc3.
      cbn [has_nul existsb]. fold (has_nul (decode_utf8_ignore r3)).
      rewrite (IH r3) by (cbn in Hlen |- *; lia). unfold cont.
      rewrite (proj2 (N.eqb_neq 0 _)).
      + by rewrite (proj2 (N.eqb_neq (Byte.to_N b3) 0)) by lia.
      + apply in_range_spec in Hc1.
        destruct (N.eqb_spec (Byte.to_N b0) 240); lia. }
  by apply (H (List.length bs)).
Qed.

Lemma get_local_run E file data w :
  is_url file = false →
  files w !! file = Some (NFile true data) →
  ∀ events, get E file (logged w events)
            = (Ok (decode_utf8_ignore (stored_bytes E data)), logged w events).
Proof.
  intros Hlocal Hfile events. unfold get, try_except, read_bytes.
  rewrite Hlocal. munfold. cbn. by rewrite Hfile.
Qed.

(** X15: a local file that can be read is taken for binary, and skipped by
    the highlighter, exactly when one of its bytes is zero. *)
Theorem local_binary_iff_zero_byte (E : Env) (filename : string)
    (data : FileData) (size : Size) (color : bool) (fontSize margin : string)
    (path relative : bool) (w : World) :
  is_url filename = false →
  files w !! filename = Some (NFile true data) →
  (render E filename size false color fontSize margin path relative w).1
  = Ok None
  ↔ Byte.x00 ∈ stored_bytes E data.
Proof.
  intros Hlocal Hfile.
  assert (Hzero : has_zero_byte (stored_bytes E data) = true
                  ↔ Byte.x00 ∈ stored_bytes E data).
  { unfold has_zero_byte. rewrite existsb_exists. split.
    - intros (b & Hin & Hb). apply N.eqb_eq in Hb.
      pose proof (Byte.of_to_N b) as Hof. rewrite Hb in Hof.
      injection Hof as <-. by apply list_elem_of_In.
    - intros Hin. exists Byte.x00. split; [by apply list_elem_of_In|done]. }
  rewrite <- Hzero, <- has_nul_decode.
  unfold render.
  rewrite (bind_ok _ _ w tt
             (logged w [printed ("Rendering " +:+ filename +:+ "...") None
                                EmptyString])) by done.
  cbv iota.
  erewrite bind_ok by by apply get_local_run.
  destruct (has_nul _) eqn:Hnul.
  - split; [done|]. intros _. munfold. by cbn.
  - split; [|done]. unfold set_bookmark. munfold. cbn.
    destruct (HTML_render E None _ _) as [[[|p ps]]|e]; by cbn.
Qed.

(** X16: a highlighted document: when the content has no NUL and WeasyPrint
    renders the markup into at least one page, [render] returns the
    document with one bookmark, on its first page only: level 1, the
    path as title (the base name when [path] is off), at (0, 0), closed.
    The other pages are as rendered, and the terminal shows the progress
    line, its erasure and "Rendered ...". *)
Theorem render_highlight_bookmark (E : Env) (filename : string)
    (size : Size) (color : bool) (fontSize margin : string)
    (path relative : bool) (code : text) (p : WPage) (ps : list WPage)
    (w : World) :
  (get E filename w).1 = Ok code →
  has_nul code = false →
  let title := if path then filename else os_path_basename filename in
  HTML_render E None (highlighted E filename code color)
              (page_styles title fontSize margin size)
  = Ok (mkDocument (p :: ps)) →
  render E filename size false color fontSize margin path relative w
  = (Ok (Some (mkDocument
                 (mkWPage (width p) (height p) (body p)
                          [mkBookmark 1 title (0, 0)%Z "closed"] :: ps))),
     logged w [printed ("Rendering " +:+ filename +:+ "...") None EmptyString;
               printed clear_line None cr_end;
               printed ("Rendered " +:+ filename +:+ ".") None nl]).
Proof.
  intros Hget Hnul title Hrender. unfold render.
  rewrite (bind_ok _ _ w tt
             (logged w [printed ("Rendering " +:+ filename +:+ "...") None
                                EmptyString])) by done.
  cbv iota.
  erewrite bind_ok by by apply get_ok_logged.
  rewrite Hnul. fold title. cbv zeta.
  fold (highlighted E filename code color).
  fold (page_styles title fontSize margin size).
  unfold set_bookmark. munfold. rewrite Hrender. cbn.
  by rewrite !logged_logged.
Qed.

(** X17: the text [get] returns for a local file that can be read consists of
    Unicode scalar values only (no surrogate, nothing above U+10FFFF),
    whatever the bytes; bytes that are all ASCII come back unchanged.
    The world is untouched. *)
Theorem local_text_is_unicode (E : Env) (file : string) (data : FileData)
    (w : World) :
  is_url file = false →
  files w !! file = Some (NFile true data) →
  ∃ code,
    get E file w = (Ok code, w)
    ∧ Forall is_scalar code
    ∧ (Forall (λ b, (Byte.to_N b < 128)%N) (stored_bytes E data) →
       code = Byte.to_N <$> stored_bytes E data).
Proof.
  intros Hlocal Hfile. eexists. split; [|split].
  - pose proof (get_local_run E file data w Hlocal Hfile []) as H.
    by rewrite logged_nil in H.
  - apply decode_utf8_ignore_scalar.
  - apply decode_utf8_ignore_ascii.
Qed.

(** ** [write] and [concatenate] *)



Lemma forM_PdfFileReader_raises inputs w :
  Exists (λ path, stored_as_pdf w path = false) inputs →
  ∃ e, forM PdfFileReader inputs w = (Raised e, w).
Proof.
  induction inputs as [|path inputs IH]; intros Hbad.
  - by apply Exists_nil in Hbad.
  - cbn [forM]. unfold mbind, M_bind, bind.
    unfold stored_as_pdf in *. unfold PdfFileReader at 1.
    destruct (files w !! path) as [[[] [bs|pdf]|]|] eqn:Hpath;
      try by eexists.
    apply Exists_cons in Hbad as [Hbad|Hbad].
    { by rewrite Hpath in Hbad. }
    destruct (IH Hbad) as [e ->]. by exists e.
Qed.

(** X20: when one of the inputs is not a readable PDF, [concatenate] fails
    before it changes anything: no temporary file is made and no output
    written. *)
Theorem concatenate_unreadable_input (E : Env) (output : string)
    (inputs : list string) (w : World) :
  Exists (λ path, stored_as_pdf w path = false) inputs →
  ∃ e, concatenate E output inputs w = (Raised e, w).
Proof.
  intros Hbad. destruct (forM_PdfFileReader_raises inputs w Hbad) as [e He].
  exists e. unfold concatenate, py_list.
  unfold mbind at 1, M_bind at 1, bind at 1. by rewrite He.
Qed.

Lemma merged_page_snoc page first others reader i :
  merged_page page first (others ++ [reader]) i
  = merge_right page i (merged_page page first others i) reader.
Proof. unfold merged_page. by rewrite foldl_app. Qed.

Lemma at_origin_urx p : at_origin p → (urx (mediaBox p) == page_width p)%Q.
Proof. intros (Hx & _). unfold page_width. lra. Qed.

(** X21: on page [i] of the output, whatever page [i] of input [k] holds (the
    blank filler's content when the input has no such page) is there,
    moved right by the summed widths of the pages of the inputs before
    it and not moved vertically. *)
Theorem columns_placed_at_running_width (page : PdfPage)
    (first : list PdfPage) (others : list (list PdfPage)) (i k : nat)
    (reader : list PdfPage) (c : Placed) :
  at_origin page →
  Forall (Forall at_origin) (first :: others) →
  (first :: others) !! k = Some reader →
  c ∈ contents (page_or_filler page reader i) →
  ∃ c', c' ∈ contents (merged_page page first others i)
        ∧ frag c' = frag c
        ∧ (dx c' == dx c
                    + Qsum ((λ r, page_width (page_or_filler page r i))
                              <$> take k (first :: others)))%Q
        ∧ (dy c' == dy c)%Q.
Proof.
  intros Hpage Hall. revert k reader c.
  induction others as [|last others IH] using rev_ind; intros k reader c.
  - destruct k as [|k]; [|done]. intros [= <-] Hc. exists c.
    split; [done|]. split; [done|]. unfold Qsum; cbn. split; lra.
  - apply Forall_cons in Hall as [Hfirst Hothers].
    apply Forall_app in Hothers as [Hothers _].
    rewrite merged_page_snoc. intros Hk Hc.
    destruct (decide (k < S (List.length others))%nat) as [Hlt|Hge].
    + rewrite app_comm_cons, lookup_app_l in Hk by (cbn; lia).
      destruct (IH (Forall_cons_2 _ _ _ Hfirst Hothers) k reader c Hk Hc)
        as (c' & Hin & Hfrag & Hdx & Hdy).
      exists c'. split.
      * unfold merge_right, mergeTranslatedPage; cbn.
        apply elem_of_app. by left.
      * split; [done|]. split; [|done].
        rewrite Hdx. rewrite app_comm_cons, take_app_le by (cbn; lia).
        reflexivity.
    + assert (k = S (List.length others)) as ->.
      { apply lookup_lt_Some in Hk. rewrite app_comm_cons, length_app in Hk.
        cbn in Hk. lia. }
      rewrite app_comm_cons, lookup_app_r in Hk by (cbn; lia).
      replace (S (List.length others) - List.length (first :: others))%nat
        with 0%nat in Hk by (cbn; lia).
      injection Hk as <-.
      destruct (merged_page_width page first others i Hpage Hfirst Hothers)
        as [Horigin Hwidth].
      exists (mkPlaced (frag c)
                       (dx c + urx (mediaBox (merged_page page first others i)))
                       (dy c + 0)).
      split.
      * unfold merge_right, mergeTranslatedPage; cbn.
        apply elem_of_app. right. apply list_elem_of_fmap.
        by exists c.
      * split; [done|]. cbn [dx dy]. split; [|lra].
        rewrite (at_origin_urx _ Horigin), Hwidth.
        rewrite app_comm_cons, take_app_le by (cbn; lia).
        rewrite take_ge by (cbn; lia).
        rewrite <- list_fmap_compose. reflexivity.
Qed.

Lemma mergeTranslatedPage_height (left right : PdfPage) :
  at_origin left → at_origin right →
  (page_height (mergeTranslatedPage left right (urx (mediaBox left)) 0)
   == Qmax (page_height left) (page_height right))%Q.
Proof.
  unfold at_origin, page_height, mergeTranslatedPage; cbn.
  intros (Hlx & Hly & Hux & Huy) (Hlx' & Hly' & Hux' & Huy').
  destruct (Q.min_spec (lly (mediaBox right) + 0) (ury (mediaBox right) + 0))
    as [[? Hm2]|[? Hm2]];
  destruct (Q.max_spec (lly (mediaBox right) + 0) (ury (mediaBox right) + 0))
    as [[? HM2]|[? HM2]];
  rewrite ?Hm2, ?HM2;
  match goal with
  | |- context [Qmin (lly (mediaBox left)) ?a] =>
      destruct (Q.min_spec (lly (mediaBox left)) a) as [[? Hm4]|[? Hm4]]
  end;
  match goal with
  | |- context [Qmax (ury (mediaBox left)) ?a] =>
      destruct (Q.max_spec (ury (mediaBox left)) a) as [[? HM4]|[? HM4]]
  end;
  rewrite ?Hm4, ?HM4;
  match goal with
  | |- context [Qmax ?a ?b == _] => idtac
  | |- (_ == Qmax ?a ?b)%Q =>
      destruct (Q.max_spec a b) as [[? HM5]|[? HM5]]; rewrite HM5
  end; lra.
Qed.

(** X22: a page of the output is as high as the highest of the pages merged
    into it: no lower than any of them, and exactly as high as one. *)
Theorem composite_height (page : PdfPage) (first : list PdfPage)
    (others : list (list PdfPage)) (i : nat) :
  at_origin page →
  Forall (Forall at_origin) (first :: others) →
  let out := merged_page page first others i in
  (∀ reader, reader ∈ first :: others →
     (page_height (page_or_filler page reader i) <= page_height out)%Q)
  ∧ ∃ reader, reader ∈ first :: others
      ∧ (page_height out == page_height (page_or_filler page reader i))%Q.
Proof.
  intros Hpage Hall. cbv zeta.
  induction others as [|last others IH] using rev_ind.
  - unfold merged_page; cbn. split.
    + intros reader Hin. apply list_elem_of_singleton in Hin as ->. lra.
    + exists first. split; [apply list_elem_of_here|reflexivity].
  - apply Forall_cons in Hall as [Hfirst Hothers].
    apply Forall_app in Hothers as [Hothers Hlast].
    apply Forall_cons in Hlast as [Hlast _].
    destruct (IH (Forall_cons_2 _ _ _ Hfirst Hothers)) as [Hle (r & Hr & Heq)].
    destruct (merged_page_width page first others i Hpage Hfirst Hothers)
      as [Horigin _].
    pose proof (page_or_filler_at_origin page last i Hpage Hlast) as Hl.
    pose proof (mergeTranslatedPage_height _ _ Horigin Hl) as Hh.
    rewrite merged_page_snoc. unfold merge_right.
    destruct (Q.max_spec (page_height (merged_page page first others i))
                (page_height (page_or_filler page last i)))
      as [[Hlt HM]|[Hge HM]]; rewrite HM in Hh.
    + split.
      * intros reader Hin. rewrite Hh.
        rewrite app_comm_cons in Hin.
        apply elem_of_app in Hin as [Hin|Hin].
        -- specialize (Hle reader Hin). lra.
        -- apply list_elem_of_singleton in Hin as ->. lra.
      * exists last. split; [|exact Hh].
        rewrite app_comm_cons. apply elem_of_app. right.
        apply list_elem_of_here.
    + split.
      * intros reader Hin. rewrite Hh.
        rewrite app_comm_cons in Hin.
        apply elem_of_app in Hin as [Hin|Hin].
        -- by apply Hle.
        -- apply list_elem_of_singleton in Hin as ->. lra.
      * exists r. split; [|by rewrite Hh].
        rewrite app_comm_cons. apply elem_of_app. by left.
Qed.

(** ** The whole run *)








Lemma prefix_app (s t : string) : String.prefix s (s +:+ t) = true.
Proof.
  induction s as [|c s IH]; [by destruct t|].
  change (match ascii_dec c c with
          | left _ => String.prefix s (s +:+ t)
          | right _ => false
          end = true).
  by destruct (ascii_dec c c).
Qed.






(** X12: a run over positional inputs whose expansion holds a path that is
    neither a file, a URL nor a directory ends with exit status 1: the
    hook prints "Could not recognize ..." in yellow, then "Rendering
    cancelled." in red; nothing else is printed, and files and standard
    input are untouched. *)
Theorem run_unrecognized_path (E : Env) (args : Args) (before : list string)
    (path : string) (after : list string) (w : World) :
  arg_INPUT args ≠ [] →
  arg_INPUT args ≠ ["-"] →
  (glob_patterns E (arg_INPUT args) [] w).1 = Ok (before ++ path :: after) →
  Forall (λ p, recognized w p = true) before →
  recognized w path = false →
  run E args w
  = (1%Z,
     logged w [printed ("Could not recognize " +:+ path +:+ ".")
                       (Some "yellow") nl;
               printed "Rendering cancelled." (Some "red") nl]).
Proof.
  intros Hin Hdash Hglob Hbefore Hpath.
  assert (Hmain : main E args w
    = (Raised (RuntimeError ("Could not recognize " +:+ path +:+ ".")), w)).
  { unfold main. cbv zeta.
    rewrite (bool_decide_true _ Hin).
    rewrite (bind_ok _ _ w (arg_INPUT args) w) by done.
    rewrite (bool_decide_false _ Hdash).
    rewrite (bind_ok _ _ w (arg_INPUT args) w) by done.
    rewrite (bind_ok _ _ w (before ++ path :: after) w).
    2:{ pose proof (glob_patterns_world E (arg_INPUT args) [] w) as Hw.
        destruct (glob_patterns E (arg_INPUT args) [] w) as [r w0].
        cbn in Hglob, Hw. by subst. }
    unfold mbind at 1, M_bind at 1, bind at 1.
    by rewrite (find_candidates_unrecognized E before path after [] w). }
  unfold run. rewrite Hmain. unfold excepthook.
  change (String.eqb ("Could not recognize " +:+ path +:+ ".") EmptyString)
    with false.
  munfold. cbn. by rewrite logged_logged.
Qed.

(** ** The addresses [get] requests *)

Lemma one_char_none cs :
  one_char (RNone cs) (λ d, negb (existsb (Ascii.eqb d) cs)).
Proof.
  intros k bol [|d s] g; [done|]. cbn. by destruct (existsb _ cs).
Qed.

Lemma one_char_any :
  one_char RAny (λ d, negb (existsb (Ascii.eqb d) [newline])).
Proof.
  intros k bol [|d s] g; [done|]. cbn. by destruct (Ascii.eqb d newline).
Qed.

Lemma rx_match_seq r1 r2 k :
  rx_match (RSeq r1 r2) k = rx_match r1 (rx_match r2 k).
Proof. reflexivity. Qed.

Lemma rx_match_plus r k bol s g :
  rx_match (RPlus r) k bol s g
  = (fix more (n : nat) : Cont :=
       rx_match r
         (λ bol' s' g',
            match n with
            | S n' =>
                match more n' bol' s' g' with
                | Some m => Some m
                | None => k bol' s' g'
                end
            | O => k bol' s' g'
            end))
      (String.length s) bol s g.
Proof. reflexivity. Qed.

Lemma string_length_app (a b : string) :
  String.length (a +:+ b) = (String.length a + String.length b)%nat.
Proof.
  induction a as [|c a IH]; [done|].
  change (S (String.length (a +:+ b))
          = S (String.length a + String.length b)).
  by rewrite IH.
Qed.

(** A greedy [+] over a class takes the whole run when what follows
    matches after it. *)
Lemma rx_plus_run r p seg tail k bol g result :
  one_char r p →
  seg ≠ EmptyString →
  forallb p (list_ascii_of_string seg) = true →
  run_end p tail →
  k false tail g = Some result →
  rx_match (RPlus r) k bol (seg +:+ tail) g = Some result.
Proof.
  intros Hr Hne Hseg Htail Hk. rewrite rx_match_plus.
  assert (Hfuel : (String.length seg ≤ String.length (seg +:+ tail))%nat)
    by (rewrite string_length_app; lia).
  revert Hfuel. generalize (String.length (seg +:+ tail)) as n.
  revert bol Hne Hseg. induction seg as [|c seg IH]; intros bol Hne Hseg n Hn;
    [done|].
  cbn in Hseg. apply andb_true_iff in Hseg as [Hc Hseg].
  destruct n as [|n]; [cbn in Hn; lia|].
  rewrite Hr. change (String c seg +:+ tail) with (String c (seg +:+ tail)).
  cbv iota. rewrite Hc. cbv beta iota.
  destruct seg as [|c' seg].
  - change (EmptyString +:+ tail) with tail.
    destruct n as [|n].
    + rewrite Hr. destruct tail as [|d tail]; [by rewrite Hk|].
      cbn in Htail. by rewrite Htail, Hk.
    + rewrite Hr. destruct tail as [|d tail]; [by rewrite Hk|].
      cbn in Htail. by rewrite Htail, Hk.
  - rewrite (IH false); [done|done|done|cbn in Hn |- *; lia].
Qed.

Lemma substring_app (a b : string) :
  substring 0 (String.length a) (a +:+ b) = a.
Proof.
  induction a as [|c a IH]; [by destruct b|].
  change (String c (substring 0 (String.length a) (a +:+ b)) = String c a).
  by rewrite IH.
Qed.

Lemma consumed_app (a b : string) : consumed (a +:+ b) b = a.
Proof.
  unfold consumed. rewrite string_length_app.
  replace (String.length a + String.length b - String.length b)%nat
    with (String.length a) by lia.
  apply substring_app.
Qed.

Lemma consumed_all (a : string) : consumed a EmptyString = a.
Proof.
  rewrite <- (string_app_nil_r a) at 1. apply consumed_app.
Qed.

Lemma rx_search_not_at_start r s :
  rx_search (RSeq RBol r) false s = None.
Proof. induction s as [|c s IH]; [done|]. exact IH. Qed.

Lemma rx_search_found r bol s m :
  rx_match r (λ _ _ g, Some g) bol s [] = Some m →
  rx_search r bol s = Some m.
Proof. intros H. destruct s; cbn; by rewrite H. Qed.

Lemma rx_search_start r s :
  rx_match (RSeq RBol r) (λ _ _ g, Some g) true s [] = None →
  rx_search (RSeq RBol r) true s = None.
Proof.
  intros H. destruct s as [|c s]; cbn [rx_search]; rewrite H; [done|].
  apply rx_search_not_at_start.
Qed.

Lemma rx_match_bol k s g : rx_match RBol k true s g = k true s g.
Proof. reflexivity. Qed.

Lemma rx_match_char c k bol s g :
  rx_match (RChar c) k bol (String c s) g = k false s g.
Proof. cbn. by rewrite Ascii.eqb_refl. Qed.

Lemma rx_match_group n r k bol s g :
  rx_match (RGroup n r) k bol s g
  = rx_match r (λ bol' s' g', k bol' s' ((n, consumed s s') :: g')) bol s g.
Proof. reflexivity. Qed.

Lemma rx_match_eol k bol g :
  rx_match REol k bol EmptyString g = k bol EmptyString g.
Proof. reflexivity. Qed.

Lemma rx_opt_take r k bol s g result :
  rx_match r k bol s g = Some result →
  rx_match (ROpt r) k bol s g = Some result.
Proof. intros H. cbn. by rewrite H. Qed.

Lemma rx_opt_skip r k bol s g :
  rx_match r k bol s g = None →
  rx_match (ROpt r) k bol s g = k bol s g.
Proof. intros H. cbn. by rewrite H. Qed.

Lemma string_app_cons c (a b : string) : String c a +:+ b = String c (a +:+ b).
Proof. reflexivity. Qed.

Lemma string_app_nil_l (b : string) : EmptyString +:+ b = b.
Proof. reflexivity. Qed.

Ltac str_norm :=
  repeat first [ rewrite string_app_cons | rewrite string_app_nil_l
               | rewrite string_app_nil_r ].

Lemma rx_match_any d k bol s g :
  Ascii.eqb d newline = false →
  rx_match RAny k bol (String d s) g = k false s g.
Proof. intros H. cbn. by rewrite H. Qed.

Lemma rx_plus_all r p seg k bol g result :
  one_char r p →
  seg ≠ EmptyString →
  forallb p (list_ascii_of_string seg) = true →
  k false EmptyString g = Some result →
  rx_match (RPlus r) k bol seg g = Some result.
Proof.
  intros Hr Hne Hseg Hk. rewrite <- (string_app_nil_r seg).
  by apply (rx_plus_run r p).
Qed.

Lemma consumed_prefix (a b s : string) : s = a +:+ b → consumed s b = a.
Proof. intros ->. apply consumed_app. Qed.

Ltac rx_step :=
  first [ rewrite rx_match_seq | rewrite rx_match_bol | rewrite rx_match_char
        | rewrite rx_match_group | rewrite rx_match_eol
        | rewrite rx_match_any by reflexivity | progress cbv beta ].

Ltac rx_run H1 H2 :=
  eapply rx_plus_run;
  [ first [apply one_char_none | apply one_char_any] | exact H1 | exact H2
  | reflexivity | ].

Ltac rx_rest H1 H2 :=
  eapply rx_plus_all;
  [ first [apply one_char_none | apply one_char_any] | exact H1 | exact H2 | ].

Ltac rx_plus H1 H2 := first [rx_run H1 H2 | rx_rest H1 H2].

Ltac rx_groups :=
  repeat f_equal;
  first [ apply consumed_all
        | apply consumed_prefix;
          repeat first [ rewrite string_app_cons | rewrite string_app_nil_l
                       | rewrite string_app_nil_r | rewrite string_app_assoc ];
          reflexivity ].

Lemma github_blob_match (secure : bool) (user repo rest : string) :
  stretch ["/"%char] user → stretch ["/"%char] repo →
  stretch [newline] rest →
  rx_search github_blob true
    (scheme secure +:+ "://github.com/" +:+ user +:+ "/" +:+ repo
     +:+ "/blob/" +:+ rest)
  = Some [(2%nat, rest);
          (1%nat,
           scheme secure +:+ "://github.com/" +:+ user +:+ "/" +:+ repo)].
Proof.
  intros [Hu Huser] [Hr Hrepo] [Hn Hrest].
  apply rx_search_found. unfold github_blob.
  cbn [rx_seq rx_str fmap list_fmap list_ascii_of_string].
  destruct secure; unfold scheme; str_norm.
  - repeat rx_step. apply rx_opt_take. repeat rx_step.
    rx_run Hu Huser. repeat rx_step. rx_run Hr Hrepo. repeat rx_step.
    rx_rest Hn Hrest. repeat rx_step. rx_groups.
  - repeat rx_step. rewrite rx_opt_skip by reflexivity. repeat rx_step.
    rx_run Hu Huser. repeat rx_step. rx_run Hr Hrepo. repeat rx_step.
    rx_rest Hn Hrest. repeat rx_step. rx_groups.
Qed.

Lemma gist_match (secure : bool) (user id : string) (slash : bool)
    (name : option string) :
  stretch ["/"%char] user → stretch ["/"%char; "#"%char] id →
  (∀ n, name = Some n → stretch [newline] n) →
  rx_search gist true (gist_address secure user id slash name)
  = Some (match name with Some n => [(2%nat, n)] | None => [] end
          ++ [(1%nat, scheme secure +:+ "://gist.github.com/" +:+ user +:+ "/"
                      +:+ id +:+ (if slash then "/" else ""))]).
Proof.
  intros [Hu Huser] [Hi Hid] Hname.
  apply rx_search_found. unfold gist, gist_address.
  cbn [rx_seq rx_str fmap list_fmap list_ascii_of_string app].
  destruct secure; unfold scheme; str_norm;
    [ repeat rx_step; apply rx_opt_take
    | repeat rx_step; rewrite rx_opt_skip by reflexivity ];
    repeat rx_step; rx_run Hu Huser; repeat rx_step;
    destruct slash, name as [n|]; cbn [app]; str_norm;
    try (destruct (Hname n eq_refl) as [Hn Hfile]).
  all: rx_plus Hi Hid.
  all: first [ rewrite rx_opt_skip by reflexivity | apply rx_opt_take ].
  all: repeat rx_step.
  all: first [ rewrite rx_opt_skip by reflexivity | apply rx_opt_take ].
  all: repeat rx_step.
  all: try (rx_rest Hn Hfile; repeat rx_step).
  all: rx_groups.
Qed.

Lemma github_not_gist (secure : bool) (rest : string) :
  rx_search gist true (scheme secure +:+ "://github.com/" +:+ rest) = None.
Proof.
  unfold gist. cbn [rx_seq rx_str fmap list_fmap list_ascii_of_string].
  apply rx_search_start. destruct secure; reflexivity.
Qed.

Lemma gist_not_github (secure : bool) (rest : string) :
  rx_search github_blob true (scheme secure +:+ "://gist.github.com/" +:+ rest)
  = None.
Proof.
  unfold github_blob. cbn [rx_seq rx_str fmap list_fmap list_ascii_of_string].
  apply rx_search_start. destruct secure; reflexivity.
Qed.

(** The raw address of a file shown on GitHub. *)
Lemma github_blob_location (secure : bool) (user repo rest : string) :
  stretch ["/"%char] user → stretch ["/"%char] repo →
  stretch [newline] rest →
  raw_location (scheme secure +:+ "://github.com/" +:+ user +:+ "/" +:+ repo
                +:+ "/blob/" +:+ rest)
  = scheme secure +:+ "://github.com/" +:+ user +:+ "/" +:+ repo +:+ "/raw/"
    +:+ rest.
Proof.
  intros Huser Hrepo Hrest. unfold raw_location.
  rewrite (github_blob_match secure user repo rest Huser Hrepo Hrest).
  cbv zeta iota. unfold format_group. cbn [rx_group Nat.eqb].
  rewrite !string_app_assoc. by rewrite github_not_gist.
Qed.

(** The raw address of a Gist, or of one of its files. *)
Lemma gist_location (secure : bool) (user id : string) (slash : bool)
    (name : option string) :
  stretch ["/"%char] user → stretch ["/"%char; "#"%char] id →
  (∀ n, name = Some n → stretch [newline] n) →
  raw_location (gist_address secure user id slash name)
  = scheme secure +:+ "://gist.github.com/" +:+ user +:+ "/" +:+ id
    +:+ (if slash then "/" else "") +:+ "/raw"
    +:+ match name with Some n => "/" +:+ n | None => "" end.
Proof.
  intros Huser Hid Hname. unfold raw_location.
  unfold gist_address at 1. rewrite gist_not_github. cbv zeta iota.
  rewrite (gist_match secure user id slash name Huser Hid Hname).
  unfold format_group. destruct name as [n|]; cbn [app rx_group Nat.eqb].
  - destruct (Hname n eq_refl) as [Hn _].
    destruct (String.eqb_spec n EmptyString) as [->|_]; [done|].
    by rewrite !string_app_assoc.
  - rewrite !string_app_assoc. by rewrite string_app_nil_r.
Qed.

Lemma get_url_run (E : Env) (file : string) (w : World) :
  is_url file = true → get E file w = fetched E (raw_url E file) w.
Proof.
  intros Hurl. unfold get, fetched. rewrite Hurl. munfold. cbv zeta.
  destruct (requests_get E (raw_url E file)) as [[status body]|e]; [|done].
  cbn. by destruct (status =? 200)%Z.
Qed.

Lemma is_url_scheme (secure : bool) (rest : string) :
  is_url (scheme secure +:+ rest) = true.
Proof.
  unfold is_url, startswith.
  destruct secure; unfold scheme;
    [change ("https" +:+ rest) with ("http" +:+ "s" +:+ rest)|];
    by rewrite prefix_app.
Qed.

(** X23: when lines 376-384 are what rewrites the address, [get] on the
    address of a file shown on GitHub, [http(s)://github.com/<user>/
    <repo>/blob/<rest>], requests [.../<user>/<repo>/raw/<rest>]
    instead: it returns the text of the answer when the status is 200,
    and otherwise raises "Could not GET" naming the raw address, after
    erasing the progress line. *)
Theorem get_github_blob (E : Env) (secure : bool) (user repo rest : string)
    (w : World) :
  (∀ file, raw_url E file = raw_location file) →
  stretch ["/"%char] user → stretch ["/"%char] repo →
  stretch [newline] rest →
  get E (scheme secure +:+ "://github.com/" +:+ user +:+ "/" +:+ repo
         +:+ "/blob/" +:+ rest) w
  = fetched E (scheme secure +:+ "://github.com/" +:+ user +:+ "/" +:+ repo
               +:+ "/raw/" +:+ rest) w.
Proof.
  intros Hraw Huser Hrepo Hrest.
  rewrite get_url_run by apply is_url_scheme.
  by rewrite Hraw, github_blob_location.
Qed.

(** X24: when lines 376-384 are what rewrites the address, [get] on a Gist
    address, [http(s)://gist.github.com/<user>/<id>], requests it with
    [/raw] added, and with [/<name>] after that when the address ends in
    [#file-<name>]; a slash after [<id>] is kept, so that the request
    goes to [<id>//raw]. *)
Theorem get_gist (E : Env) (secure : bool) (user id : string) (slash : bool)
    (name : option string) (w : World) :
  (∀ file, raw_url E file = raw_location file) →
  stretch ["/"%char] user → stretch ["/"%char; "#"%char] id →
  (∀ n, name = Some n → stretch [newline] n) →
  get E (gist_address secure user id slash name) w
  = fetched E (scheme secure +:+ "://gist.github.com/" +:+ user +:+ "/" +:+ id
               +:+ (if slash then "/" else "") +:+ "/raw"
               +:+ match name with Some n => "/" +:+ n | None => "" end) w.
Proof.
  intros Hraw Huser Hid Hname.
  rewrite get_url_run by apply is_url_scheme.
  by rewrite Hraw, gist_location.
Qed.

(** * The theorems at work on the small environment *)



Lemma url_pattern_also_globbed_witness :
  startswith "http" "http*" = true
  ∧ braceexpand Toy.env "http*" = Ok ["http*"]
  ∧ glob_patterns Toy.env ["http*"; "a.txt"] [] Toy.world
    = (Ok ["http*"; "httpd.conf"; "a.txt"], Toy.world)
  ∧ "httpd.conf" ∈ ["http*"; "httpd.conf"; "a.txt"].
Proof.
  split; [reflexivity|]. split; [reflexivity|].
  destruct (url_pattern_also_globbed Toy.env "http*" ["a.txt"] [] ["http*"]
              Toy.world eq_refl eq_refl) as [Hstep Hin].
  split; [rewrite Hstep; reflexivity|].
  destruct (Hin ["http*"; "httpd.conf"; "a.txt"] Toy.world) as [_ Hfile];
    [rewrite Hstep; reflexivity|].
  apply (Hfile "http*"); [apply list_elem_of_here|].
  change (glob Toy.env "http*") with ["httpd.conf"]. apply list_elem_of_here.
Defined.



(** C7, as first stated, fails: inputs from standard input, an output
    that exists and no [--force].  Nothing is asked, nothing is
    rendered, the output keeps its old content and the exit status is 1. *)
Lemma stdin_inputs_do_not_overwrite :
  let w := mkWorld Toy.disk ∅ ["a.txt"] [] in
  arg_force Toy.args = false
  ∧ arg_INPUT Toy.args = []
  ∧ os_path_exists w "out.pdf" = true
  ∧ confirm_overwrite Toy.args "out.pdf" w
    = (Raised (RuntimeError "Output exists."), w)
  ∧ (run Toy.env Toy.args w).1 = 1%Z
  ∧ files (run Toy.env Toy.args w).2 = Toy.disk
  ∧ tty (run Toy.env Toy.args w).2
    = [printed "Output exists." (Some "yellow") nl;
       printed "Rendering cancelled." (Some "red") nl].
Proof. repeat split. Qed.

(** C1, as first stated, fails: the second input is binary, the run is
    cancelled with exit status 1, and both staging files are still on
    disk. *)
Lemma staging_files_not_removed :
  let final := run Toy.env Toy.args_side_by_side Toy.world in
  final.1 = 1%Z
  ∧ files Toy.world !! "0" = None
  ∧ files Toy.world !! "1" = None
  ∧ files final.2 !! "0"
    = Some (NFile true
              (PdfData [mkPdfPage (mkBox 0 0 (px_to_pt (inject_Z 528))
                                         (px_to_pt (inject_Z 816)))
                                  [mkPlaced "alpha#0" 0 0]]))
  ∧ files final.2 !! "1" = Some (NFile true (RawData [])).
Proof. vm_compute. repeat split. Qed.

Lemma staging_file_left_on_failure_witness :
  let size := SizeSpec "letter landscape" in
  let queue := ["a.txt"; "blob.bin"] in
  let final :=
    side_by_side Toy.env Toy.args_side_by_side "new.pdf" queue size
                 Toy.world in
  HTML_render Toy.env None [] [CssPageSize size]
  = Ok (mkDocument [mkWPage 1056 816 "#0" []])
  ∧ queue ≠ []
  ∧ final.1 = Raised (SystemExit 1)
  ∧ files Toy.world !! fresh (dom (files Toy.world)) = None
  ∧ is_Some (files final.2 !! fresh (dom (files Toy.world))).
Proof.
  intros size queue final.
  assert (Hblank : HTML_render Toy.env None [] [CssPageSize size]
                   = Ok (mkDocument [mkWPage 1056 816 "#0" []]))
    by reflexivity.
  assert (Hqueue : queue ≠ []) by done.
  assert (Hfinal : final.1 = Raised (SystemExit 1)) by reflexivity.
  destruct (staging_file_left_on_failure Toy.env Toy.args_side_by_side
              "new.pdf" queue size _ (mkWPage 1056 816 "#0" []) Toy.world
              Hblank eq_refl Hqueue) as [Hnew Hleft].
  split; [exact Hblank|]. split; [exact Hqueue|]. split; [exact Hfinal|].
  split; [exact Hnew|].
  apply Hleft. fold final. rewrite Hfinal. discriminate.
Defined.



(** ** Runs of the whole driver *)

(** A batch with a binary file in the middle: the run ends with status
    0 and the output holds the page of the first file and the two pages
    of the third. *)
Example batch_with_binary_completes :
  let final := run Toy.env Toy.args_batch Toy.world in
  final.1 = 0%Z
  ∧ Toy.stored_fragments final.2 "new.pdf"
    = Some [["alpha#0"]; [Toy.b_page "0"]; [Toy.b_page "1"]].
Proof. vm_compute. repeat split. Qed.

(** Two columns, one page against two: the output has two pages, and
    the left half of the second is the blank filler.  Both staging
    files are on disk when the run ends with status 0; the filler's
    file is gone. *)
Example two_columns_run :
  let final := run Toy.env Toy.args_two_columns Toy.world in
  final.1 = 0%Z
  ∧ Toy.stored_fragments final.2 "new.pdf"
    = Some [["alpha#0"; Toy.b_page "0"]; ["#0"; Toy.b_page "1"]]
  ∧ Toy.stored_fragments final.2 "0"
    = Some [["alpha#0"]]
  ∧ Toy.stored_fragments final.2 "1"
    = Some [[Toy.b_page "0"]; [Toy.b_page "1"]]
  ∧ files final.2 !! "2" = None
  ∧ elements (open_fds final.2) ≡ₚ [0; 1]%nat.
Proof. vm_compute. repeat split. apply Permutation_swap. Qed.

(** A directory filtered by [-i "*.py"]: the files below it in natural
    order, those that are not Python sources left out. *)
Example include_python_sources :
  (paths ← glob_patterns Toy.env ["src"] [];
   candidates ← find_candidates Toy.env paths [];
   filter_candidates (translate_patterns ["*.py"]) [] candidates [])
    Toy.world
  = (Ok ["src/lib/util9.py"; "src/lib/util10.py"; "src/main.py"], Toy.world).
Proof. reflexivity. Qed.

(** ** The further properties at work *)

Lemma single_pattern_wildcard_witness :
  has_newline "src/main.py" = false
  ∧ re_search (anchored (translate_patterns ["*.py"])) "src/main.py"
    = Ok true.
Proof.
  split; [reflexivity|].
  exact (proj1 (single_pattern_wildcard "*.py" "src/main.py" eq_refl)).
Defined.

Lemma confirm_overwrite_answers_witness :
  arg_force Toy.args_two_columns = false
  ∧ arg_INPUT Toy.args_two_columns ≠ []
  ∧ is_Some (files Toy.world !! "out.pdf")
  ∧ Forall undecided ["maybe"; ""]
  ∧ confirm_overwrite Toy.args_two_columns "out.pdf"
      (Toy.typed ["maybe"; ""; "Yes"; "left"])
    = (Ok tt,
       mkWorld Toy.disk ∅ ["left"]
               (replicate 3 (Prompted "Overwrite out.pdf? "))).
Proof.
  assert (H1 : arg_INPUT Toy.args_two_columns ≠ []) by done.
  assert (H2 : is_Some (files Toy.world !! "out.pdf")) by (by eexists).
  assert (H3 : Forall undecided ["maybe"; ""]) by (repeat constructor).
  split; [reflexivity|]. split; [exact H1|]. split; [exact H2|].
  split; [exact H3|].
  exact (confirm_overwrite_answers Toy.args_two_columns "out.pdf"
           ["maybe"; ""] "Yes" ["left"] Toy.world eq_refl H1 H2 H3 eq_refl).
Defined.

Lemma confirm_overwrite_eof_witness :
  arg_force Toy.args_two_columns = false
  ∧ arg_INPUT Toy.args_two_columns ≠ []
  ∧ is_Some (files Toy.world !! "out.pdf")
  ∧ Forall undecided ["maybe"]
  ∧ confirm_overwrite Toy.args_two_columns "out.pdf" (Toy.typed ["maybe"])
    = (Raised (PyError "EOFError"),
       mkWorld Toy.disk ∅ []
               (replicate 2 (Prompted "Overwrite out.pdf? "))).
Proof.
  assert (H1 : arg_INPUT Toy.args_two_columns ≠ []) by done.
  assert (H2 : is_Some (files Toy.world !! "out.pdf")) by (by eexists).
  assert (H3 : Forall undecided ["maybe"]) by (repeat constructor).
  split; [reflexivity|]. split; [exact H1|]. split; [exact H2|].
  split; [exact H3|].
  exact (confirm_overwrite_eof Toy.args_two_columns "out.pdf"
           ["maybe"] Toy.world eq_refl H1 H2 H3).
Defined.

Lemma run_unrecognized_path_witness :
  arg_INPUT Toy.args_stale ≠ []
  ∧ arg_INPUT Toy.args_stale ≠ ["-"]
  ∧ (glob_patterns Toy.env (arg_INPUT Toy.args_stale) [] Toy.stale).1
    = Ok (["a.txt"] ++ "x.py.bak" :: [])
  ∧ Forall (λ p, recognized Toy.stale p = true) ["a.txt"]
  ∧ recognized Toy.stale "x.py.bak" = false
  ∧ run Toy.env Toy.args_stale Toy.stale
    = (1%Z,
       logged Toy.stale
         [printed "Could not recognize x.py.bak." (Some "yellow") nl;
          printed "Rendering cancelled." (Some "red") nl]).
Proof.
  assert (H1 : arg_INPUT Toy.args_stale ≠ []) by done.
  assert (H2 : arg_INPUT Toy.args_stale ≠ ["-"]) by done.
  assert (H3 : Forall (λ p, recognized Toy.stale p = true) ["a.txt"])
    by (repeat constructor).
  assert (H4 : recognized Toy.stale "x.py.bak" = false) by (by vm_compute).
  repeat (split; [done|]).
  exact (run_unrecognized_path Toy.env Toy.args_stale ["a.txt"] "x.py.bak" []
           Toy.stale H1 H2 eq_refl H3 H4).
Defined.


Lemma local_binary_iff_zero_byte_witness :
  is_url "blob.bin" = false
  ∧ files Toy.world !! "blob.bin"
    = Some (NFile true (RawData [x00; x01; x02]))
  ∧ (render Toy.env "blob.bin" (SizeSpec "letter landscape") false true
       "10pt" ".5in" true true Toy.world).1
    = Ok None.
Proof.
  split; [reflexivity|]. split; [reflexivity|].
  apply (local_binary_iff_zero_byte Toy.env "blob.bin"
           (RawData [x00; x01; x02]) (SizeSpec "letter landscape") true
           "10pt" ".5in" true true Toy.world eq_refl eq_refl).
  apply list_elem_of_here.
Defined.

Lemma render_highlight_bookmark_witness :
  let code := Toy.text_of_string "alpha" in
  let p := mkWPage 1056 816 "alpha#0" [] in
  (get Toy.env "a.txt" Toy.world).1 = Ok code
  ∧ has_nul code = false
  ∧ HTML_render Toy.env None (highlighted Toy.env "a.txt" code true)
      (page_styles "a.txt" "10pt" ".5in" (SizeSpec "letter landscape"))
    = Ok (mkDocument [p])
  ∧ render Toy.env "a.txt" (SizeSpec "letter landscape") false true "10pt"
      ".5in" true true Toy.world
    = (Ok (Some (mkDocument
                   [mkWPage 1056 816 "alpha#0"
                            [mkBookmark 1 "a.txt" (0, 0)%Z "closed"]])),
       logged Toy.world
         [printed "Rendering a.txt..." None EmptyString;
          printed clear_line None cr_end;
          printed "Rendered a.txt." None nl]).
Proof.
  intros code p.
  split; [reflexivity|]. split; [reflexivity|]. split; [reflexivity|].
  exact (render_highlight_bookmark Toy.env "a.txt"
           (SizeSpec "letter landscape") true "10pt" ".5in" true true code p []
           Toy.world eq_refl eq_refl eq_refl).
Defined.

Lemma local_text_is_unicode_witness :
  is_url "a.txt" = false
  ∧ files Toy.world !! "a.txt"
    = Some (NFile true (RawData (Toy.bytes_of_string "alpha")))
  ∧ ∃ code, get Toy.env "a.txt" Toy.world = (Ok code, Toy.world)
            ∧ Forall is_scalar code.
Proof.
  split; [reflexivity|]. split; [reflexivity|].
  destruct (local_text_is_unicode Toy.env "a.txt"
              (RawData (Toy.bytes_of_string "alpha")) Toy.world
              eq_refl eq_refl) as (code & Hget & Hscalar & _).
  by exists code.
Defined.


Lemma concatenate_unreadable_input_witness :
  Exists (λ path, stored_as_pdf Toy.shelf path = false)
         ["left.pdf"; "gone.pdf"]
  ∧ ∃ e, concatenate Toy.env "out.pdf" ["left.pdf"; "gone.pdf"] Toy.shelf
         = (Raised e, Toy.shelf).
Proof.
  assert (H : Exists (λ path, stored_as_pdf Toy.shelf path = false)
                     ["left.pdf"; "gone.pdf"]).
  { apply Exists_cons_tl, Exists_cons_hd. reflexivity. }
  split; [exact H|].
  exact (concatenate_unreadable_input Toy.env "out.pdf"
           ["left.pdf"; "gone.pdf"] Toy.shelf H).
Defined.

Lemma columns_placed_at_running_width_witness :
  let page := pdf_of_wpage Toy.blank_sheet in
  let c := mkPlaced "R2" 0 0 in
  at_origin page
  ∧ Forall (Forall at_origin) [Toy.left_pdf; Toy.mid_pdf; Toy.right_pdf]
  ∧ [Toy.left_pdf; Toy.mid_pdf; Toy.right_pdf] !! 2%nat = Some Toy.right_pdf
  ∧ c ∈ contents (page_or_filler page Toy.right_pdf 1)
  ∧ ∃ c', c' ∈ contents (merged_page page Toy.left_pdf
                                     [Toy.mid_pdf; Toy.right_pdf] 1)
          ∧ frag c' = "R2"
          ∧ (dx c' == 396 + 264)%Q.
Proof.
  intros page c.
  assert (H1 : at_origin page) by (repeat split; by vm_compute).
  assert (H2 : Forall (Forall at_origin)
                      [Toy.left_pdf; Toy.mid_pdf; Toy.right_pdf])
    by (repeat constructor; by vm_compute).
  assert (H3 : c ∈ contents (page_or_filler page Toy.right_pdf 1))
    by apply list_elem_of_here.
  repeat (split; [done|]).
  destruct (columns_placed_at_running_width page Toy.left_pdf
              [Toy.mid_pdf; Toy.right_pdf] 1 2 Toy.right_pdf c H1 H2 eq_refl H3)
    as (c' & Hin & Hfrag & Hdx & _).
  exists c'. split; [exact Hin|]. split; [exact Hfrag|].
  rewrite Hdx. by vm_compute.
Defined.

Lemma composite_height_witness :
  let page := pdf_of_wpage Toy.blank_sheet in
  at_origin page
  ∧ Forall (Forall at_origin) [Toy.left_pdf; Toy.mid_pdf]
  ∧ (page_height (merged_page page Toy.left_pdf [Toy.mid_pdf] 0) == 612)%Q.
Proof.
  intros page.
  assert (H1 : at_origin page) by (repeat split; by vm_compute).
  assert (H2 : Forall (Forall at_origin) [Toy.left_pdf; Toy.mid_pdf])
    by (repeat constructor; by vm_compute).
  repeat (split; [done|]).
  destruct (composite_height page Toy.left_pdf [Toy.mid_pdf] 0 H1 H2)
    as [_ (reader & Hin & Heq)].
  rewrite Heq.
  apply elem_of_cons in Hin as [->|Hin]; [by vm_compute|].
  apply list_elem_of_singleton in Hin as ->. by vm_compute.
Defined.

Lemma column_width_bounds_witness :
  (0 <= 1056)%Q
  ∧ ∃ c : Z,
      (py_int <$> div_len 1056 3) Toy.world = (Ok c, Toy.world)
      ∧ (0 <= c)%Z
      ∧ (inject_Z c * inject_Z (Z.of_nat 3) <= 1056)%Q
      ∧ (1056 < inject_Z (c + 1) * inject_Z (Z.of_nat 3))%Q.
Proof.
  assert (H : (0 <= 1056)%Q) by (by vm_compute).
  split; [exact H|].
  exact (column_width_bounds 1056 3 Toy.world H).
Defined.

Lemma get_github_blob_witness :
  (∀ file, raw_url Toy.web file = raw_location file)
  ∧ stretch ["/"%char] "u" ∧ stretch ["/"%char] "r"
  ∧ stretch [newline] "main/a.py"
  ∧ get Toy.web "https://github.com/u/r/blob/main/a.py" Toy.world
    = (Ok (Toy.text_of_string "print(1)"), Toy.world).
Proof.
  assert (H0 : ∀ file, raw_url Toy.web file = raw_location file) by done.
  assert (H1 : stretch ["/"%char] "u") by (by split).
  assert (H2 : stretch ["/"%char] "r") by (by split).
  assert (H3 : stretch [newline] "main/a.py") by (by split).
  repeat (split; [done|]).
  exact (get_github_blob Toy.web true "u" "r" "main/a.py" Toy.world
           H0 H1 H2 H3).
Defined.

Lemma get_gist_witness :
  (∀ file, raw_url Toy.web file = raw_location file)
  ∧ stretch ["/"%char] "u" ∧ stretch ["/"%char; "#"%char] "abc"
  ∧ (∀ n, Some "a-py" = Some n → stretch [newline] n)
  ∧ get Toy.web "https://gist.github.com/u/abc/#file-a-py" Toy.world
    = (Raised (RuntimeError
                 "Could not GET https://gist.github.com/u/abc//raw/a-py."),
       logged Toy.world [printed clear_line None cr_end]).
Proof.
  assert (H0 : ∀ file, raw_url Toy.web file = raw_location file) by done.
  assert (H1 : stretch ["/"%char] "u") by (by split).
  assert (H2 : stretch ["/"%char; "#"%char] "abc") by (by split).
  assert (H3 : ∀ n, Some "a-py" = Some n → stretch [newline] n)
    by (intros n [= <-]; by split).
  repeat (split; [done|]).
  exact (get_gist Toy.web true "u" "abc" true (Some "a-py") Toy.world
           H0 H1 H2 H3).
Defined.
